(** * Link service: key validation, link creation, resolution and archival

    A shallow embedding of the link part of the service:
    - [src/utils/link.util.ts]: [processKey], [checkIfKeyExists], [truncate];
    - [src/utils/generateLinkPreview.util.ts]: [generateLinkPreview];
    - [src/utils/updateLinkClicks.util.ts] and the click worker;
    - [src/controller/link.controller.ts]: [handleCreateLink],
      [handleGetLink], [handleLinkArchive], [handleLinkClicks].

    JavaScript strings are sequences of UTF-16 code units, so a string is a
    [list N] of code units; the store and the cache are finite maps from keys
    to records; every handler is a function from the state before the request
    to the response and the state after it. *)

From Stdlib Require Import ZArith NArith List Bool String Ascii Lia.
From stdpp Require Import base option list gmap.

Local Open Scope N_scope.

(** ** JavaScript strings *)

(** A string literal of the source, as code units. *)
Fixpoint lit (s : string) : list N :=
  match s with
  | EmptyString => []
  | String c r => N_of_ascii c :: lit r
  end.

Definition SLASH : N := 47.
Definition HYPHEN : N := 45.
Definition DQUOTE : N := 34.
Definition NEWLINE : N := 10.

(** A property that is [undefined], [null] or holds a value. *)
Inductive field (A : Type) : Type :=
  | Undefined : field A
  | Null : field A
  | Val : A → field A.
Arguments Undefined {A}.
Arguments Null {A}.
Arguments Val {A} _.

(** JavaScript truthiness of a string: the empty string is falsy. *)
Definition truthyStr (s : list N) : bool :=
  match s with [] => false | _ => true end.

Definition truthyStrField (f : field (list N)) : bool :=
  match f with Val s => truthyStr s | _ => false end.

(** [x || null] for a string-valued [x]. *)
Definition orNull (f : field (list N)) : field (list N) :=
  if truthyStrField f then f else Null.

(** [String.prototype.slice(start, end)], negative indices counting from the
    end of the string. *)
Definition slice (s : list N) (start end_ : Z) : list N :=
  let len := Z.of_nat (length s) in
  let from :=
    if (start <? 0)%Z then Z.max (len + start) 0 else Z.min start len in
  let to := if (end_ <? 0)%Z then Z.max (len + end_) 0 else Z.min end_ len in
  take (Z.to_nat (Z.max (to - from) 0)) (drop (Z.to_nat from) s).

(** ** [link.util.ts] *)

(** With the [u] flag the regular expression runs over code points: a high
    surrogate followed by a low surrogate is one code point of a
    supplementary plane, every other code unit is a code point by itself. *)
Definition isHighSurrogate (u : N) : bool := (0xD800 <=? u) && (u <=? 0xDBFF).
Definition isLowSurrogate (u : N) : bool := (0xDC00 <=? u) && (u <=? 0xDFFF).
Definition surrogatePair (h l : N) : N :=
  0x10000 + (h - 0xD800) * 0x400 + (l - 0xDC00).

Fixpoint codePoints (s : list N) : list N :=
  match s with
  | [] => []
  | h :: t =>
      match t with
      | l :: t' =>
          if isHighSurrogate h && isLowSurrogate l
          then surrogatePair h l :: codePoints t'
          else h :: codePoints t
      | [] => [h]
      end
  end.

(** The character class [[0-9A-Za-z\u0080-\uFFFF\/\-]]. *)
Definition keyClass (c : N) : bool :=
  ((48 <=? c) && (c <=? 57))
  || ((65 <=? c) && (c <=? 90))
  || ((97 <=? c) && (c <=? 122))
  || ((0x80 <=? c) && (c <=? 0xFFFF))
  || (c =? SLASH)
  || (c =? HYPHEN).

(** [validKeyRegex.test(key)] for [/^[0-9A-Za-z\u0080-\uFFFF\/\-]*$/u]. *)
Definition validKeyRegex_test (key : list N) : bool :=
  forallb keyClass (codePoints key).

Definition isSlash (c : N) : bool := c =? SLASH.

(** The alternative [^\/+] of the replace pattern: it can only match at
    index 0 and takes the whole run of slashes there. *)
Fixpoint dropLeadingSlashes (s : list N) : list N :=
  match s with
  | c :: t => if isSlash c then dropLeadingSlashes t else s
  | [] => []
  end.

(** The alternative [\/+$]: scanning from the left, the first index from
    which only slashes remain up to the end of the string is matched and the
    rest of the string removed. *)
Fixpoint dropTrailingSlashes (s : list N) : list N :=
  match s with
  | [] => []
  | c :: t => if forallb isSlash s then [] else c :: dropTrailingSlashes t
  end.

(** [key.replace(/^\/+|\/+$/g, '')]. *)
Definition replaceSlashes (key : list N) : list N :=
  dropTrailingSlashes (dropLeadingSlashes key).

Definition processKey (key : list N) : option (list N) :=
  if negb (validKeyRegex_test key) then None
  else
    let key := replaceSlashes key in
    if (length key =? 0)%nat then None else Some key.

Definition reservedKeys : list (list N) :=
  [lit "blog"; lit "pricing"; lit "privacy"].

Definition truncate (str : field (list N)) (length_ : Z) : field (list N) :=
  match str with
  | Val s =>
      if negb (truthyStr s) || (Z.of_nat (length s) <=? length_)%Z then str
      else Val (slice s 0 (length_ - 3) ++ lit "...")
  | _ => str
  end.

(** ** [generateLinkPreview.util.ts] *)

(** A template literal writes [null] as the text "null"; a default parameter
    value is used only when the argument is [undefined]. *)
Definition defaultParam (f : field (list N)) (dflt : list N) : field (list N) :=
  match f with Undefined => Val dflt | _ => f end.

Definition templateString (f : field (list N)) : list N :=
  match f with
  | Undefined => lit "undefined"
  | Null => lit "null"
  | Val s => s
  end.

Definition metaTag (property : string) (content : list N) : list N :=
  lit "        <meta property=" ++ [DQUOTE] ++ lit property ++ [DQUOTE]
    ++ lit " content=" ++ [DQUOTE] ++ content ++ [DQUOTE] ++ lit " />"
    ++ [NEWLINE].

Definition generateLinkPreview (title description image : field (list N))
  : list N :=
  let title := defaultParam title (lit "Link Preview") in
  let description := defaultParam description (lit "Link Description") in
  let image := defaultParam image (lit "#") in
  [NEWLINE]
    ++ lit "      <html>" ++ [NEWLINE]
    ++ lit "      <head>" ++ [NEWLINE]
    ++ metaTag "og:title" (templateString title)
    ++ metaTag "og:description" (templateString description)
    ++ metaTag "og:image" (templateString image)
    ++ lit "      </head>" ++ [NEWLINE]
    ++ lit "    </html>" ++ [NEWLINE]
    ++ lit "      ".

(** ** Data model *)

Local Open Scope Z_scope.

(** One row of the [Link] table.  Instants are milliseconds since the epoch;
    [id], [createdAt] and [updatedAt] are filled in by the store. *)
Record Link := mkLink {
  link_id : list N;
  link_key : list N;
  link_url : list N;
  link_archived : bool;
  link_expiresAt : option Z;
  link_title : option (list N);
  link_description : option (list N);
  link_image : option (list N);
  link_userId : option (list N);
  link_clicks : Z;
  link_createdAt : Z;
  link_updatedAt : Z
}.

(** A date held by a JavaScript object: a [Date], or the ISO string that
    [JSON.stringify] writes for it.  [new Date(v)] reads the same instant
    from both. *)
Inductive dateValue : Type :=
  | DateObject (ms : Z)
  | DateString (ms : Z).

Definition newDate (d : dateValue) : Z :=
  match d with DateObject ms => ms | DateString ms => ms end.

(** The object bound to [link] in [handleGetLink]: a row returned by the
    store, or the object parsed from a cache entry.  Both writers of the
    cache put a [url] in; every other property may be missing. *)
Record LinkObject := mkLinkObject {
  o_id : field (list N);
  o_key : field (list N);
  o_url : list N;
  o_archived : field bool;
  o_expiresAt : field dateValue;
  o_title : field (list N);
  o_description : field (list N);
  o_image : field (list N);
  o_userId : field (list N);
  o_clicks : field Z;
  o_createdAt : field dateValue;
  o_updatedAt : field dateValue
}.

Definition nullable {A B} (f : A → B) (o : option A) : field B :=
  match o with Some a => Val (f a) | None => Null end.

(** The object [prismaClient.link.findUnique] resolves to for a row. *)
Definition linkObject (l : Link) : LinkObject :=
  {| o_id := Val (link_id l);
     o_key := Val (link_key l);
     o_url := link_url l;
     o_archived := Val (link_archived l);
     o_expiresAt := nullable DateObject (link_expiresAt l);
     o_title := nullable id (link_title l);
     o_description := nullable id (link_description l);
     o_image := nullable id (link_image l);
     o_userId := nullable id (link_userId l);
     o_clicks := Val (link_clicks l);
     o_createdAt := Val (DateObject (link_createdAt l));
     o_updatedAt := Val (DateObject (link_updatedAt l)) |}.

(** The text of a cache entry, kept as the object it denotes. *)
Inductive Json : Type := JsonText (o : LinkObject).

Definition dateToJSON (f : field dateValue) : field dateValue :=
  match f with
  | Val d => Val (DateString (newDate d))
  | other => other
  end.

(** [JSON.stringify]: dates are written as ISO strings, [null] stays,
    [undefined] properties are left out. *)
Definition JSON_stringify (o : LinkObject) : Json :=
  JsonText
    {| o_id := o_id o; o_key := o_key o; o_url := o_url o;
       o_archived := o_archived o;
       o_expiresAt := dateToJSON (o_expiresAt o);
       o_title := o_title o; o_description := o_description o;
       o_image := o_image o; o_userId := o_userId o; o_clicks := o_clicks o;
       o_createdAt := dateToJSON (o_createdAt o);
       o_updatedAt := dateToJSON (o_updatedAt o) |}.

Definition JSON_parse (j : Json) : LinkObject :=
  match j with JsonText o => o end.

(** ** The cache and the store *)

(** The cache server and the database are outside the repository; they are
    modelled by their contracts: a key-value cache with create-only writes
    and absolute expiry, and a table with a unique index on [key].  Cache
    values are only ever written by the two handlers below, so a value is
    always the text of an object. *)

(** A cache entry with its optional absolute expiry.  [EXAT] is given in
    seconds as [getTime() / 1000]; the entry keeps the instant in
    milliseconds. *)
Record CacheEntry := mkCacheEntry {
  payload : Json;
  exat : option Z
}.

Record State := mkState {
  store : gmap (list N) Link;
  cache : gmap (list N) CacheEntry
}.

(** An entry with an expiry is evicted at that instant. *)
Definition entryLive (now : Z) (e : CacheEntry) : bool :=
  match exat e with
  | Some t => now <? t
  | None => true
  end.

(** [redisClient.get(key)]. *)
Definition redisClient_get (c : gmap (list N) CacheEntry) (now : Z)
    (key : list N) : option Json :=
  match c !! key with
  | Some e => if entryLive now e then Some (payload e) else None
  | None => None
  end.

(** [redisClient.set(key, value, { NX, EXAT })]: with [NX] the write happens
    only when the key holds no entry. *)
Definition redisClient_set (c : gmap (list N) CacheEntry) (now : Z)
    (key : list N) (value : Json) (NX : bool) (EXAT : option Z)
  : gmap (list N) CacheEntry :=
  if NX && bool_decide (is_Some (redisClient_get c now key)) then c
  else <[key := {| payload := value; exat := EXAT |}]> c.

(** The server takes [EXAT] only as a positive whole number of seconds.
    [getTime() / 1000] is neither for an instant with a millisecond part or
    one before 1970: the SET is then refused, whatever [NX] says, and
    [redisClient.set] rejects. *)
Definition exatRefused (EXAT : option Z) : bool :=
  match EXAT with
  | Some ms => negb ((0 <? ms) && (ms mod 1000 =? 0))
  | None => false
  end.

(** [redisClient.del(key)]. *)
Definition redisClient_del (c : gmap (list N) CacheEntry) (key : list N)
  : gmap (list N) CacheEntry :=
  delete key c.

(** [prismaClient.link.findUnique({ where: { key } })]. *)
Definition findUnique (s : gmap (list N) Link) (key : list N) : option Link :=
  s !! key.

(** [prismaClient.link.create]: the unique index on [key] refuses a second
    row with the same key. *)
Definition prisma_create (s : gmap (list N) Link) (row : Link)
  : option (gmap (list N) Link) :=
  match s !! link_key row with
  | Some _ => None
  | None => Some (<[link_key row := row]> s)
  end.

Definition checkIfKeyExists (s : gmap (list N) Link) (key : list N) : bool :=
  if bool_decide (key ∈ reservedKeys) then true
  else bool_decide (is_Some (findUnique s key)).

(** ** The click worker *)

(** A JavaScript number that may be [NaN]. *)
Inductive jsnum : Type :=
  | Num (n : Z)
  | NaN.

Record WorkerData := mkWorkerData {
  wd_key : list N;
  wd_clicks : jsnum
}.

Inductive WorkerMessage : Type :=
  | StatusDone
  | StatusError.

(** The row after [clicks: { increment: 1 }]; [updatedAt] is the store's. *)
Definition incrementClicks (now : Z) (l : Link) : Link :=
  mkLink (link_id l) (link_key l) (link_url l) (link_archived l)
    (link_expiresAt l) (link_title l) (link_description l) (link_image l)
    (link_userId l) (link_clicks l + 1) (link_createdAt l) now.

(** [updateLinkClicksWorker]: only [key] is taken out of the worker data;
    the update is [clicks: { increment: 1 }], and it throws when no row has
    the key. *)
Definition updateLinkClicksWorker (s : gmap (list N) Link) (now : Z)
    (workerData : WorkerData) : gmap (list N) Link * WorkerMessage :=
  let key := wd_key workerData in
  match s !! key with
  | Some l => (<[key := incrementClicks now l]> s, StatusDone)
  | None => (s, StatusError)
  end.

(** ** [link.controller.ts] *)

Inductive Response : Type :=
  | BadRequest (message : string)
  | Conflict (message : string)
  | Created (message : string)
  | NotFound (message : string)
  | Gone (message : string)
  | BotPreview (html : list N)
  | Redirect (url : list N)
  | Ok (message : string)
  | Thrown.

(** [expiresAt] of a creation request: a falsy value, a value that
    [new Date] reads as an instant, or one it reads as an invalid date. *)
Inductive ExpiresInput : Type :=
  | ExpAbsent
  | ExpDate (ms : Z)
  | ExpInvalid.

Record LinkRequestBody := mkBody {
  body_url : list N;
  body_key : list N;
  body_expiresAt : ExpiresInput
}.

Record OgImage := mkOgImage {
  secure_url : field (list N);
  img_url : field (list N)
}.

Record OpenGraph := mkOpenGraph {
  og_title : field (list N);
  og_description : field (list N);
  og_images : option (list OgImage)
}.

Record Metadata := mkMetadata {
  open_graph : option OpenGraph
}.

(** What the outside world supplies to one creation request: the clock, the
    identifier the store gives the new row, and the result of [getMetadata]
    ([None] when it rejects). *)
Record CreateEnv := mkCreateEnv {
  env_now : Z;
  env_id : list N;
  env_metadata : option Metadata
}.

Definition firstImage (images : option (list OgImage)) : field (list N) :=
  match images with
  | Some (i :: _) =>
      if truthyStrField (secure_url i) then secure_url i else img_url i
  | _ => Undefined
  end.

Definition fieldToOption (f : field (list N)) : option (list N) :=
  match f with Val s => Some s | _ => None end.

Definition orEmpty (f : field (list N)) : field (list N) :=
  if truthyStrField f then f else Val [].

(** The value written under [key] by [handleCreateLink]: only [url],
    [title], [description] and [image]. *)
Definition creationEntry (url : list N)
    (title description image : field (list N)) : Json :=
  JsonText
    {| o_id := Undefined; o_key := Undefined; o_url := url;
       o_archived := Undefined; o_expiresAt := Undefined;
       o_title := orNull (truncate title 120);
       o_description := orNull (truncate (orEmpty description) 240);
       o_image := orNull image;
       o_userId := Undefined; o_clicks := Undefined;
       o_createdAt := Undefined; o_updatedAt := Undefined |}.

Definition handleCreateLink (st : State) (env : CreateEnv)
    (body : LinkRequestBody) (userId : option (list N)) : Response * State :=
  let url := body_url body in
  let key := body_key body in
  let expiresAt := body_expiresAt body in
  if negb (truthyStr url) || negb (truthyStr key) then
    (BadRequest "Link and Key are required!", st)
  else if negb (bool_decide (is_Some (processKey key))) then
    (BadRequest "Invalid Key!", st)
  else if checkIfKeyExists (store st) key then
    (Conflict "Key already exists!", st)
  else
    match env_metadata env with
    | None => (Thrown, st)
    | Some metadata =>
        let og := open_graph metadata in
        let title :=
          match og with Some g => og_title g | None => Undefined end in
        let description :=
          match og with Some g => og_description g | None => Undefined end in
        let images := match og with Some g => og_images g | None => None end in
        let image := firstImage images in
        match expiresAt with
        | ExpInvalid => (Thrown, st)
        | _ =>
            let expires :=
              match expiresAt with ExpDate ms => Some ms | _ => None end in
            let row :=
              {| link_id := env_id env;
                 link_key := key;
                 link_url := url;
                 link_archived := false;
                 link_expiresAt := expires;
                 link_title := fieldToOption (orNull (truncate title 120));
                 link_description :=
                   fieldToOption (orNull (truncate (orEmpty description) 240));
                 link_image := fieldToOption (orNull image);
                 link_userId := userId;
                 link_clicks := 0;
                 link_createdAt := env_now env;
                 link_updatedAt := env_now env |} in
            match prisma_create (store st) row with
            | None => (Thrown, st)
            | Some store' =>
                let exat :=
                  match expires with
                  | Some ms => if ms =? 0 then None else Some ms
                  | None => None
                  end in
                if exatRefused exat then (Thrown, mkState store' (cache st))
                else
                  let cache' :=
                    redisClient_set (cache st) (env_now env) key
                      (creationEntry url title description image) true exat in
                  (Created "Link created!", mkState store' cache')
            end
        end
    end.

Definition truthyBoolField (f : field bool) : bool :=
  match f with Val b => b | _ => false end.

(** [link.expiresAt && new Date(link.expiresAt) < new Date()]. *)
Definition expired (now : Z) (link : LinkObject) : bool :=
  match o_expiresAt link with
  | Val d => newDate d <? now
  | _ => false
  end.

(** [link.clicks + 1]. *)
Definition clicksPlusOne (f : field Z) : jsnum :=
  match f with
  | Val n => Num (n + 1)
  | Null => Num 1
  | Undefined => NaN
  end.

Section Controller.

(** The user-agent classifier of the [isbot] package. *)
Variable isbot : option (list N) → bool.

(** Everything in [handleGetLink] after [link] has been resolved.
    [updateLinkClicks(workerData)] starts the worker and the response does
    not wait for it, so the worker data is handed back next to the
    response. *)
Definition respond (now : Z) (key : list N) (userAgent : option (list N))
    (link : LinkObject) : Response * option WorkerData :=
  if expired now link then (Gone "Link expired", None)
  else if truthyBoolField (o_archived link) then (Gone "Link archived", None)
  else if isbot userAgent then
    (BotPreview
       (generateLinkPreview (o_title link) (o_description link) (o_image link)),
     None)
  else
    (Redirect (o_url link),
     Some {| wd_key := key; wd_clicks := clicksPlusOne (o_clicks link) |}).

Definition handleGetLink (st : State) (now : Z) (key : list N)
    (userAgent : option (list N)) : Response * State * option WorkerData :=
  if negb (truthyStr key) then (BadRequest "Key is required!", st, None)
  else
    match redisClient_get (cache st) now key with
    | None =>
        match findUnique (store st) key with
        | None => (NotFound "Link not found", st, None)
        | Some row =>
            let link := linkObject row in
            let cache' :=
              redisClient_set (cache st) now key (JSON_stringify link)
                false None in
            let '(r, w) := respond now key userAgent link in
            (r, mkState (store st) cache', w)
        end
    | Some text =>
        let link := JSON_parse text in
        let '(r, w) := respond now key userAgent link in
        (r, st, w)
    end.

End Controller.

(** The row after [data: { archived: true }]. *)
Definition archiveRow (now : Z) (l : Link) : Link :=
  mkLink (link_id l) (link_key l) (link_url l) true
    (link_expiresAt l) (link_title l) (link_description l) (link_image l)
    (link_userId l) (link_clicks l) (link_createdAt l) now.

Definition handleLinkArchive (st : State) (now : Z) (key : list N)
  : Response * State :=
  if negb (truthyStr key) then (BadRequest "Key is required!", st)
  else
    match findUnique (store st) key with
    | None => (NotFound "Link not found", st)
    | Some link =>
        if link_archived link then (Conflict "Link already archived", st)
        else
          let cache' := redisClient_del (cache st) key in
          let store' := <[key := archiveRow now link]> (store st) in
          (Ok "Link archived", mkState store' cache')
    end.

(** The answers of [handleLinkClicks]; the 200 answer carries
    [{ clicks: link.clicks }]. *)
Inductive ClicksResponse : Type :=
  | ClicksBadRequest (message : string)
  | ClicksNotFound (message : string)
  | ClicksOk (clicks : Z).

(** [handleLinkClicks] reads the store only. *)
Definition handleLinkClicks (st : State) (key : list N) : ClicksResponse :=
  if negb (truthyStr key) then ClicksBadRequest "Key is required!"
  else
    match findUnique (store st) key with
    | None => ClicksNotFound "Link not found"
    | Some link => ClicksOk (link_clicks link)
    end.

(** * Vocabulary of the properties *)

(** ** Keys *)

(** No high surrogate is directly followed by a low surrogate. *)
Fixpoint noSurrogatePair (s : list N) : bool :=
  match s with
  | [] => true
  | h :: t =>
      match t with
      | l :: _ => negb (isHighSurrogate h && isLowSurrogate l)
      | [] => true
      end && noSurrogatePair t
  end.

(** [r] is [key] without its leading and trailing slashes. *)
Definition stripped (key r : list N) : Prop :=
  ∃ n m, key = replicate n SLASH ++ r ++ replicate m SLASH
         ∧ head r ≠ Some SLASH ∧ last r ≠ Some SLASH.

(** The characters the key validator lets through: digits, ASCII letters,
    the code points U+0080 to U+FFFF, '/' and '-'. *)
Definition allowedCodePoint (c : N) : Prop :=
  (48 ≤ c ≤ 57)%N ∨ (65 ≤ c ≤ 90)%N ∨ (97 ≤ c ≤ 122)%N
  ∨ (0x80 ≤ c ≤ 0xFFFF)%N ∨ c = SLASH ∨ c = HYPHEN.

(** The same set with no upper end, every code point above the ASCII range
    being let through. *)
Definition claimedCodePoint (c : N) : Prop :=
  (48 ≤ c ≤ 57)%N ∨ (65 ≤ c ≤ 90)%N ∨ (97 ≤ c ≤ 122)%N
  ∨ (0x80 ≤ c)%N ∨ c = SLASH ∨ c = HYPHEN.

(** U+1F600, written as its surrogate pair. *)
Definition grinningFace : list N := [0xD83D; 0xDE00]%N.

(** ** Requests and answers *)

(** The workers of a run of dispatched click updates, one after the other. *)
Fixpoint runWorkers (s : gmap (list N) Link) (jobs : list (Z * WorkerData))
  : gmap (list N) Link :=
  match jobs with
  | [] => s
  | (now, wd) :: rest => runWorkers (updateLinkClicksWorker s now wd).1 rest
  end.

Definition isGone (r : Response) : bool :=
  match r with Gone _ => true | _ => false end.

Definition servesLink (r : Response) : bool :=
  match r with Redirect _ | BotPreview _ => true | _ => false end.

(** The record a resolution works on: the object parsed from the live
    cache entry of the key, or else the row the store has for it. *)
Definition resolvedRecord (st : State) (now : Z) (key : list N)
  : option LinkObject :=
  match redisClient_get (cache st) now key with
  | Some text => Some (JSON_parse text)
  | None => linkObject <$> findUnique (store st) key
  end.

(** A row that is archived, or whose expiry lies before [now]. *)
Definition inert (now : Z) (l : Link) : bool :=
  link_archived l
  || match link_expiresAt l with Some e => e <? now | None => false end.

(** Every property of the object is the row's field; dates are the ISO
    strings of the row's instants. *)
Definition sameContent (l : Link) (o : LinkObject) : Prop :=
  o_id o = Val (link_id l)
  ∧ o_key o = Val (link_key l)
  ∧ o_url o = link_url l
  ∧ o_archived o = Val (link_archived l)
  ∧ o_expiresAt o = nullable DateString (link_expiresAt l)
  ∧ o_title o = nullable id (link_title l)
  ∧ o_description o = nullable id (link_description l)
  ∧ o_image o = nullable id (link_image l)
  ∧ o_userId o = nullable id (link_userId l)
  ∧ o_clicks o = Val (link_clicks l)
  ∧ o_createdAt o = Val (DateString (link_createdAt l))
  ∧ o_updatedAt o = Val (DateString (link_updatedAt l)).

(** The answers to a run of later requests for one key. *)
Fixpoint resolveAll (isbot : option (list N) → bool) (st : State)
    (key : list N) (reqs : list (Z * option (list N))) : list Response :=
  match reqs with
  | [] => []
  | (now, ua) :: rest =>
      let '(r, st', _) := handleGetLink isbot st now key ua in
      r :: resolveAll isbot st' key rest
  end.

(** The row under [key] is archived and the cache holds nothing for the key
    but a copy of that row. *)
Definition archivedInv (key : list N) (st : State) : Prop :=
  ∃ l, store st !! key = Some l ∧ link_archived l = true
       ∧ ∀ e, cache st !! key = Some e →
              payload e = JSON_stringify (linkObject l).

(** ** Sample data *)

(** A classifier that takes exactly the user agent "Slackbot" for a bot. *)
Definition isbotSample (ua : option (list N)) : bool :=
  bool_decide (ua = Some (lit "Slackbot")).

Definition exampleUrl : list N := lit "https://example.com".

Definition emptyState : State := mkState ∅ ∅.

(** The page at [exampleUrl] has no Open Graph data. *)
Definition plainEnv : CreateEnv :=
  {| env_now := 1000; env_id := lit "id1";
     env_metadata := Some {| open_graph := None |} |}.

Definition sampleRow : Link :=
  {| link_id := lit "id1"; link_key := lit "abc"; link_url := exampleUrl;
     link_archived := false; link_expiresAt := None;
     link_title := Some (lit "Example Domain"); link_description := None;
     link_image := None; link_userId := None; link_clicks := 0;
     link_createdAt := 1000; link_updatedAt := 1000 |}.

Definition sampleState : State := mkState {[ lit "abc" := sampleRow ]} ∅.

(** The cache still has the row as it was at 0 clicks; the store is at 5. *)
Definition staleState : State :=
  mkState
    {[ lit "abc" :=
         mkLink (lit "id1") (lit "abc") exampleUrl false None
           (Some (lit "Example Domain")) None None None 5 1000 1500 ]}
    {[ lit "abc" :=
         mkCacheEntry (JSON_stringify (linkObject sampleRow)) None ]}.

(** ** Creation, spelled out *)

Definition ogTitle (m : Metadata) : field (list N) :=
  match open_graph m with Some g => og_title g | None => Undefined end.

Definition ogDescription (m : Metadata) : field (list N) :=
  match open_graph m with Some g => og_description g | None => Undefined end.

Definition ogImage (m : Metadata) : field (list N) :=
  firstImage (match open_graph m with Some g => og_images g | None => None end).

Definition expiresOf (x : ExpiresInput) : option Z :=
  match x with ExpDate ms => Some ms | _ => None end.

(** The expiry given to the cache for a row's [expiresAt]: none when the
    instant is the epoch itself, [exat] being 0 and so falsy. *)
Definition exatOf (e : option Z) : option Z :=
  match e with
  | Some ms => if ms =? 0 then None else Some ms
  | None => None
  end.

(** The row an accepted creation request files. *)
Definition createdRow (env : CreateEnv) (m : Metadata) (body : LinkRequestBody)
    (userId : option (list N)) : Link :=
  {| link_id := env_id env;
     link_key := body_key body;
     link_url := body_url body;
     link_archived := false;
     link_expiresAt := expiresOf (body_expiresAt body);
     link_title := fieldToOption (orNull (truncate (ogTitle m) 120));
     link_description :=
       fieldToOption (orNull (truncate (orEmpty (ogDescription m)) 240));
     link_image := fieldToOption (orNull (ogImage m));
     link_userId := userId;
     link_clicks := 0;
     link_createdAt := env_now env;
     link_updatedAt := env_now env |}.

(** The conditions under which [handleCreateLink] gets to the end. *)
Definition creatable (st : State) (env : CreateEnv) (body : LinkRequestBody)
  : Prop :=
  body_url body ≠ [] ∧ body_key body ≠ []
  ∧ is_Some (processKey (body_key body))
  ∧ (body_key body ∉ reservedKeys)
  ∧ store st !! body_key body = None
  ∧ is_Some (env_metadata env)
  ∧ body_expiresAt body ≠ ExpInvalid.

(** ** Runs of requests *)

(** The requests that change the state; a click worker may be started with
    any data. *)
Inductive Request : Type :=
  | CreateLink (env : CreateEnv) (body : LinkRequestBody)
      (userId : option (list N))
  | GetLink (now : Z) (key : list N) (userAgent : option (list N))
  | ArchiveLink (now : Z) (key : list N)
  | ClickWorker (now : Z) (workerData : WorkerData).

Definition step (isbot : option (list N) → bool) (st : State) (req : Request)
  : State :=
  match req with
  | CreateLink env body userId => (handleCreateLink st env body userId).2
  | GetLink now key ua => (handleGetLink isbot st now key ua).1.2
  | ArchiveLink now key => (handleLinkArchive st now key).2
  | ClickWorker now wd =>
      mkState (updateLinkClicksWorker (store st) now wd).1 (cache st)
  end.

Definition run (isbot : option (list N) → bool) (st : State)
    (reqs : list Request) : State :=
  fold_left (step isbot) reqs st.

(** What a row keeps for good: everything but [clicks], [updatedAt] and
    an [archived] that is still false. *)
Definition rowEvolves (l l' : Link) : Prop :=
  link_id l' = link_id l ∧ link_key l' = link_key l
  ∧ link_url l' = link_url l ∧ link_expiresAt l' = link_expiresAt l
  ∧ link_title l' = link_title l ∧ link_description l' = link_description l
  ∧ link_image l' = link_image l ∧ link_userId l' = link_userId l
  ∧ link_createdAt l' = link_createdAt l
  ∧ (link_archived l = true → link_archived l' = true)
  ∧ link_clicks l ≤ link_clicks l'.

Definition lengthAtMost (n : nat) (o : option (list N)) : Prop :=
  match o with Some s => s ≠ [] ∧ (length s ≤ n)%nat | None => True end.

(** What holds of every row the handlers file under [k]. *)
Definition rowWF (k : list N) (l : Link) : Prop :=
  link_key l = k ∧ k ≠ [] ∧ validKeyRegex_test k = true ∧ (k ∉ reservedKeys)
  ∧ link_url l ≠ []
  ∧ lengthAtMost 120 (link_title l) ∧ lengthAtMost 240 (link_description l)
  ∧ 0 ≤ link_clicks l.

Definition storeWF (s : gmap (list N) Link) : Prop :=
  ∀ k l, s !! k = Some l → rowWF k l.

(** Two rows that differ at most in [clicks] and [updatedAt]. *)
Definition sameButClicks (l l' : Link) : Prop :=
  link_id l' = link_id l ∧ link_key l' = link_key l
  ∧ link_url l' = link_url l ∧ link_archived l' = link_archived l
  ∧ link_expiresAt l' = link_expiresAt l
  ∧ link_title l' = link_title l ∧ link_description l' = link_description l
  ∧ link_image l' = link_image l ∧ link_userId l' = link_userId l
  ∧ link_createdAt l' = link_createdAt l.

(** The cache entry creation writes, read off the row it files. *)
Definition rowCreationEntry (l : Link) : Json :=
  JsonText
    {| o_id := Undefined; o_key := Undefined; o_url := link_url l;
       o_archived := Undefined; o_expiresAt := Undefined;
       o_title := nullable id (link_title l);
       o_description := nullable id (link_description l);
       o_image := nullable id (link_image l);
       o_userId := Undefined; o_clicks := Undefined;
       o_createdAt := Undefined; o_updatedAt := Undefined |}.

(** Every cache entry belongs to a key that has a row, and is either a copy
    of that row, possibly behind in [clicks], with no expiry, or the
    creation entry of the row, which is then not archived, expiring with
    the row. *)
Definition coherent (st : State) : Prop :=
  ∀ k e, cache st !! k = Some e →
    ∃ l, store st !! k = Some l
         ∧ ((exat e = None
             ∧ ∃ l', payload e = JSON_stringify (linkObject l')
                     ∧ sameButClicks l l')
            ∨ (payload e = rowCreationEntry l
               ∧ exat e = exatOf (link_expiresAt l)
               ∧ link_archived l = false)).

(** Resolution with the cache left out. *)
Definition resolveFromStore (isbot : option (list N) → bool) (st : State)
    (now : Z) (key : list N) (userAgent : option (list N)) : Response :=
  if negb (truthyStr key) then BadRequest "Key is required!"
  else
    match findUnique (store st) key with
    | None => NotFound "Link not found"
    | Some row => (respond isbot now key userAgent (linkObject row)).1
    end.

(** * Properties *)

(** ** Key validation *)

Lemma keyClass_surrogatePair h l : keyClass (surrogatePair h l) = false.
Proof.
  unfold keyClass, surrogatePair, SLASH, HYPHEN.
  repeat (apply orb_false_intro); try (apply andb_false_iff; right);
    try apply N.leb_gt; try apply N.eqb_neq; lia.
Qed.

Lemma validKeyRegex_test_units s :
  validKeyRegex_test s = forallb keyClass s && noSurrogatePair s.
Proof.
  unfold validKeyRegex_test.
  induction s as [|h [|l t] IH]; [done | simpl; by rewrite !andb_true_r |].
  change (codePoints (h :: l :: t)) with
    (if isHighSurrogate h && isLowSurrogate l
     then surrogatePair h l :: codePoints t else h :: codePoints (l :: t)).
  change (noSurrogatePair (h :: l :: t)) with
    (negb (isHighSurrogate h && isLowSurrogate l) && noSurrogatePair (l :: t)).
  destruct (isHighSurrogate h && isLowSurrogate l).
  - cbn [forallb]. rewrite keyClass_surrogatePair. cbn.
    by rewrite andb_false_r.
  - change (forallb keyClass (h :: codePoints (l :: t)))
      with (keyClass h && forallb keyClass (codePoints (l :: t))).
    rewrite IH. change (forallb keyClass (h :: l :: t))
      with (keyClass h && forallb keyClass (l :: t)).
    cbn [negb andb]. by rewrite andb_assoc.
Qed.

Lemma dropLeadingSlashes_split s :
  ∃ n, s = replicate n SLASH ++ dropLeadingSlashes s.
Proof.
  induction s as [|c t [n IH]]; [by exists 0%nat|].
  simpl. destruct (isSlash c) eqn:E.
  - apply N.eqb_eq in E. subst c. exists (S n). simpl. by f_equal.
  - by exists 0%nat.
Qed.

Lemma dropLeadingSlashes_head s : head (dropLeadingSlashes s) ≠ Some SLASH.
Proof.
  induction s as [|c t IH]; [done|].
  simpl. destruct (isSlash c) eqn:E; [done|].
  simpl. intros [= ->]. unfold isSlash in E. by rewrite N.eqb_refl in E.
Qed.

Lemma dropLeadingSlashes_id s :
  head s ≠ Some SLASH → dropLeadingSlashes s = s.
Proof.
  destruct s as [|c t]; [done|]. simpl. intros H.
  destruct (isSlash c) eqn:E; [|done].
  apply N.eqb_eq in E. by subst.
Qed.

Lemma dropLeadingSlashes_replicate n s :
  dropLeadingSlashes (replicate n SLASH ++ s) = dropLeadingSlashes s.
Proof. induction n as [|n IH]; [done|]. simpl. by rewrite IH. Qed.

Lemma forallb_isSlash_replicate m : forallb isSlash (replicate m SLASH) = true.
Proof. induction m; [done|]. simpl. done. Qed.

Lemma forallb_isSlash_eq s :
  forallb isSlash s = true → s = replicate (length s) SLASH.
Proof.
  induction s as [|c t IH]; [done|]. simpl.
  intros [E H]%andb_true_iff. apply N.eqb_eq in E. subst. f_equal. auto.
Qed.

Lemma dropTrailingSlashes_split s :
  ∃ m, s = dropTrailingSlashes s ++ replicate m SLASH.
Proof.
  induction s as [|c t [m IH]]; [by exists 0%nat|].
  cbn [dropTrailingSlashes]. destruct (forallb isSlash (c :: t)) eqn:E.
  - exists (length (c :: t)). by apply forallb_isSlash_eq.
  - exists m. simpl. by f_equal.
Qed.

Lemma dropTrailingSlashes_last s : last (dropTrailingSlashes s) ≠ Some SLASH.
Proof.
  induction s as [|c t IH]; [done|].
  cbn [dropTrailingSlashes]. destruct (forallb isSlash (c :: t)) eqn:E; [done|].
  destruct (dropTrailingSlashes t) as [|d r] eqn:Ed.
  - simpl. intros [= ->].
    destruct (dropTrailingSlashes_split t) as [m Hm].
    rewrite Ed in Hm. simpl in Hm. subst t.
    simpl in E. by rewrite forallb_isSlash_replicate in E.
  - by rewrite last_cons_cons.
Qed.

Lemma last_slash_of_forallb r x :
  forallb isSlash (r ++ x) = true → r ≠ [] → last r = Some SLASH.
Proof.
  induction r as [|c t IH]; [done|]. intros H _.
  simpl in H. apply andb_true_iff in H as [E H].
  destruct t as [|d t]; [simpl; apply N.eqb_eq in E; by subst|].
  rewrite last_cons_cons. by apply IH.
Qed.

Lemma dropTrailingSlashes_app r m :
  last r ≠ Some SLASH → dropTrailingSlashes (r ++ replicate m SLASH) = r.
Proof.
  induction r as [|c t IH]; intros Hl.
  - simpl. destruct m; [done|]. cbn [replicate dropTrailingSlashes].
    change (SLASH :: replicate m SLASH) with (replicate (S m) SLASH).
    by rewrite forallb_isSlash_replicate.
  - change ((c :: t) ++ replicate m SLASH) with (c :: (t ++ replicate m SLASH)).
    cbn [dropTrailingSlashes].
    destruct (forallb isSlash (c :: t ++ replicate m SLASH)) eqn:E.
    + exfalso. apply Hl.
      apply (last_slash_of_forallb (c :: t) (replicate m SLASH)); done.
    + f_equal. apply IH. destruct t as [|d t]; [done|].
      by rewrite last_cons_cons in Hl.
Qed.

Lemma dropTrailingSlashes_head s :
  head s ≠ Some SLASH → head (dropTrailingSlashes s) ≠ Some SLASH.
Proof.
  destruct s as [|c t]; [done|]. cbn [dropTrailingSlashes].
  by destruct (forallb isSlash (c :: t)).
Qed.

Lemma replaceSlashes_stripped key : stripped key (replaceSlashes key).
Proof.
  unfold stripped, replaceSlashes.
  destruct (dropLeadingSlashes_split key) as [n Hn].
  destruct (dropTrailingSlashes_split (dropLeadingSlashes key)) as [m Hm].
  exists n, m. split; [by rewrite <- Hm|]. split.
  - apply dropTrailingSlashes_head, dropLeadingSlashes_head.
  - apply dropTrailingSlashes_last.
Qed.

Lemma stripped_unique key r : stripped key r → r = replaceSlashes key.
Proof.
  intros (n & m & -> & Hh & Hl). unfold replaceSlashes.
  rewrite dropLeadingSlashes_replicate.
  destruct r as [|c t].
  - simpl. destruct (dropLeadingSlashes_split (replicate m SLASH)) as [k Hk].
    assert (forallb isSlash (dropLeadingSlashes (replicate m SLASH)) = true)
      as Ha.
    { pose proof (forallb_isSlash_replicate m) as Hf. rewrite Hk in Hf.
      rewrite forallb_app in Hf. by apply andb_true_iff in Hf as [_ ?]. }
    destruct (dropLeadingSlashes (replicate m SLASH)) as [|d u] eqn:E; [done|].
    pose proof (dropLeadingSlashes_head (replicate m SLASH)) as Hd.
    rewrite E in Hd. simpl in Ha. apply andb_true_iff in Ha as [Ha _].
    apply N.eqb_eq in Ha. by subst.
  - rewrite dropLeadingSlashes_id; [|done].
    by rewrite dropTrailingSlashes_app.
Qed.

Lemma replaceSlashes_fixed r :
  head r ≠ Some SLASH → last r ≠ Some SLASH → replaceSlashes r = r.
Proof.
  intros Hh Hl. symmetry. apply stripped_unique.
  exists 0%nat, 0%nat. simpl. by rewrite app_nil_r.
Qed.

Lemma noSurrogatePair_suffix x s :
  noSurrogatePair (x ++ s) = true → noSurrogatePair s = true.
Proof.
  induction x as [|h t IH]; [done|].
  change ((h :: t) ++ s) with (h :: (t ++ s)). cbn [noSurrogatePair].
  intros [_ H]%andb_true_iff. auto.
Qed.

Lemma noSurrogatePair_prefix r x :
  noSurrogatePair (r ++ x) = true → noSurrogatePair r = true.
Proof.
  induction r as [|h t IH]; [done|].
  change ((h :: t) ++ x) with (h :: (t ++ x)). cbn [noSurrogatePair].
  intros [H1 H2]%andb_true_iff. rewrite IH; [|done].
  destruct t; [done|]. simpl in H1. by rewrite H1.
Qed.

Lemma validKeyRegex_test_replaceSlashes key :
  validKeyRegex_test key = true → validKeyRegex_test (replaceSlashes key) = true.
Proof.
  rewrite !validKeyRegex_test_units.
  destruct (replaceSlashes_stripped key) as (n & m & E & _).
  rewrite E at 1 2. rewrite !forallb_app.
  intros [[_ [Hc _]%andb_true_iff]%andb_true_iff Hp]%andb_true_iff.
  rewrite Hc. simpl.
  by apply noSurrogatePair_suffix, noSurrogatePair_prefix in Hp.
Qed.

Lemma processKey_Some key k :
  processKey key = Some k ↔
  validKeyRegex_test key = true ∧ k = replaceSlashes key ∧ k ≠ [].
Proof.
  unfold processKey. destruct (validKeyRegex_test key); simpl.
  - destruct (replaceSlashes key) as [|c t]; simpl; split.
    + done.
    + by intros (_ & -> & ?).
    + by intros [= <-].
    + by intros (_ & -> & _).
  - split; [done | by intros [? _]].
Qed.

Lemma processKey_idempotent key k :
  processKey key = Some k → processKey k = Some k.
Proof.
  intros (Hv & -> & Hne)%processKey_Some. apply processKey_Some.
  split; [by apply validKeyRegex_test_replaceSlashes|]. split; [|done].
  symmetry. destruct (replaceSlashes_stripped key) as (_ & _ & _ & Hh & Hl).
  by apply replaceSlashes_fixed.
Qed.

Lemma keyClass_allowed c : keyClass c = true ↔ allowedCodePoint c.
Proof.
  unfold keyClass, allowedCodePoint.
  rewrite !orb_true_iff, !andb_true_iff, !N.leb_le, !N.eqb_eq. tauto.
Qed.

Lemma validKeyRegex_test_allowed key :
  validKeyRegex_test key = true ↔ Forall allowedCodePoint (codePoints key).
Proof.
  unfold validKeyRegex_test. rewrite forallb_forall, Forall_forall.
  split; intros H c Hc.
  - apply keyClass_allowed, H. by apply list_elem_of_In.
  - apply keyClass_allowed, H. by apply list_elem_of_In.
Qed.

(** C2: a key with a code point outside the allowed set (digits, ASCII
    letters, U+0080 to U+FFFF, '/', '-'; a surrogate pair is one code point
    above U+FFFF) is rejected; every other key is answered with its leading
    and trailing slashes removed, or rejected when nothing is left; and an
    accepted key is accepted unchanged when it is processed again. *)
Theorem processKey_spec (key : list N) :
  (¬ Forall allowedCodePoint (codePoints key) → processKey key = None)
  ∧ (Forall allowedCodePoint (codePoints key) →
     ∃ r, stripped key r
          ∧ processKey key = if decide (r = []) then None else Some r)
  ∧ (∀ k, processKey key = Some k → processKey k = Some k).
Proof.
  split; [|split].
  - intros H. unfold processKey.
    destruct (validKeyRegex_test key) eqn:E; [|done].
    by apply validKeyRegex_test_allowed in E.
  - intros H%validKeyRegex_test_allowed. exists (replaceSlashes key).
    split; [apply replaceSlashes_stripped|].
    unfold processKey. rewrite H. simpl.
    by destruct (replaceSlashes key).
  - apply processKey_idempotent.
Qed.

(** The key "/a/b//" is answered "a/b", which is answered unchanged. *)
Lemma processKey_spec_witness :
  processKey (lit "a/b") = Some (lit "a/b").
Proof.
  apply (proj2 (proj2 (processKey_spec (lit "/a/b//")))).
  vm_compute. reflexivity.
Defined.

(** C2, as the claim words it, fails on U+1F600: every code point of the
    key is above the ASCII range and the key has no slash to strip, yet the
    key is rejected. *)
Lemma processKey_rejects_supplementary_plane :
  ¬ (Forall claimedCodePoint (codePoints grinningFace) →
     ∃ r, stripped grinningFace r
          ∧ processKey grinningFace = if decide (r = []) then None else Some r).
Proof.
  intros H. destruct H as (r & Hs & Hp).
  - change (codePoints grinningFace) with [0x1F600%N].
    apply Forall_cons_2; [|apply Forall_nil_2].
    unfold claimedCodePoint. right. right. right. left. lia.
  - apply stripped_unique in Hs. subst r. vm_compute in Hp. discriminate.
Qed.

(** ** Truncation *)

Lemma slice_prefix s n :
  0 ≤ n ≤ Z.of_nat (length s) → slice s 0 n = take (Z.to_nat n) s.
Proof.
  intros H. unfold slice.
  replace (0 <? 0) with false by done.
  destruct (n <? 0) eqn:E; [apply Z.ltb_lt in E; lia|].
  rewrite (Z.min_l 0), (Z.min_l n) by lia.
  change (Z.to_nat 0) with 0%nat. rewrite drop_0.
  f_equal. lia.
Qed.

(** C9: [truncate] answers its argument unchanged when it is [null] (or
    [undefined]), empty, or at most [n] code units long; a longer string is
    cut to its first [n - 3] code units followed by three dots, [n] code
    units in all: the first [n] code units with the last three replaced.
    This holds for every bound from 3 on, so for 120 and 240. *)
Theorem truncate_spec (str : field (list N)) (n : Z) :
  3 ≤ n →
  ((str = Undefined ∨ str = Null ∨ str = Val []
    ∨ ∃ s, str = Val s ∧ Z.of_nat (length s) ≤ n) →
   truncate str n = str)
  ∧ (∀ s, str = Val s → n < Z.of_nat (length s) →
     truncate str n = Val (take (Z.to_nat (n - 3)) s ++ lit "...")
     ∧ Z.of_nat (length (take (Z.to_nat (n - 3)) s ++ lit "...")) = n
     ∧ take (Z.to_nat (n - 3)) s
       = take (Z.to_nat n - 3) (take (Z.to_nat n) s)).
Proof.
  intros Hn. split.
  - intros [-> | [-> | [-> | (s & -> & Hs)]]]; try done.
    unfold truncate. apply Z.leb_le in Hs. rewrite Hs.
    by rewrite orb_true_r.
  - intros s -> Hs. split.
    + unfold truncate.
      destruct s as [|c t]; [simpl in Hs; lia|].
      cbn [truthyStr negb orb].
      destruct (Z.of_nat (length (c :: t)) <=? n) eqn:E;
        [apply Z.leb_le in E; lia|].
      by rewrite slice_prefix by lia.
    + split; [rewrite length_app, length_take; simpl; lia|].
      rewrite take_take. f_equal. lia.
Qed.

(** A title of 121 code units under the bound 120. *)
Lemma truncate_spec_witness :
  truncate (Val (replicate 121 97%N)) 120
  = Val (take 117 (replicate 121 97%N) ++ lit "...").
Proof.
  apply (proj2 (truncate_spec (Val (replicate 121 97%N)) 120 ltac:(lia))
           (replicate 121 97%N) eq_refl).
  vm_compute. reflexivity.
Defined.

(** ** The click worker *)

Lemma updateLinkClicksWorker_payload s now key c1 c2 :
  updateLinkClicksWorker s now (mkWorkerData key c1)
  = updateLinkClicksWorker s now (mkWorkerData key c2).
Proof. reflexivity. Qed.

Lemma updateLinkClicksWorker_found s now wd l :
  s !! wd_key wd = Some l →
  updateLinkClicksWorker s now wd
  = (<[wd_key wd := incrementClicks now l]> s, StatusDone).
Proof. intros H. unfold updateLinkClicksWorker. by rewrite H. Qed.

Lemma updateLinkClicksWorker_missing s now wd :
  s !! wd_key wd = None → updateLinkClicksWorker s now wd = (s, StatusError).
Proof. intros H. unfold updateLinkClicksWorker. by rewrite H. Qed.

(** However many updates for one key are dispatched, and whatever counts
    they carry, the counter ends that many above where it started. *)
Lemma runWorkers_clicks key jobs : ∀ s l,
  Forall (λ j, wd_key j.2 = key) jobs →
  s !! key = Some l →
  link_clicks <$> runWorkers s jobs !! key
  = Some (link_clicks l + Z.of_nat (length jobs)).
Proof.
  induction jobs as [|[now wd] rest IH]; intros s l Hall Hs.
  - simpl. rewrite Hs. simpl. f_equal. lia.
  - apply Forall_cons in Hall as [Hk Hall]. simpl in Hk.
    cbn [runWorkers]. rewrite <- Hk in Hs.
    rewrite (updateLinkClicksWorker_found s now wd l Hs). cbn [fst].
    rewrite Hk.
    rewrite (IH _ (incrementClicks now l) Hall) by apply lookup_insert_eq.
    simpl. f_equal. lia.
Qed.

(** ** Resolution *)

Section ControllerProperties.

Variable isbot : option (list N) → bool.

Lemma respond_JSON now key ua o :
  respond isbot now key ua (JSON_parse (JSON_stringify o))
  = respond isbot now key ua o.
Proof.
  unfold respond, expired. simpl.
  by destruct (o_expiresAt o) as [| |[]].
Qed.

Lemma respond_row_gone now key ua l :
  isGone (respond isbot now key ua (linkObject l)).1 = inert now l.
Proof.
  unfold respond, expired, inert. simpl.
  destruct (link_expiresAt l) as [e|]; simpl.
  - destruct (e <? now); simpl; [by rewrite orb_true_r|].
    rewrite orb_false_r. destruct (link_archived l); [done|].
    by destruct (isbot ua).
  - rewrite orb_false_r. destruct (link_archived l); [done|].
    by destruct (isbot ua).
Qed.

Lemma respond_row_serves now key ua l :
  servesLink (respond isbot now key ua (linkObject l)).1 = negb (inert now l).
Proof.
  unfold respond, expired, inert. simpl.
  destruct (link_expiresAt l) as [e|]; simpl.
  - destruct (e <? now); simpl; [by rewrite orb_true_r|].
    rewrite orb_false_r. destruct (link_archived l); [done|].
    by destruct (isbot ua).
  - rewrite orb_false_r. destruct (link_archived l); [done|].
    by destruct (isbot ua).
Qed.

Lemma truthyStr_true key : key ≠ [] → truthyStr key = true.
Proof. by destruct key. Qed.

Lemma handleGetLink_miss st now key ua l :
  key ≠ [] →
  redisClient_get (cache st) now key = None →
  findUnique (store st) key = Some l →
  handleGetLink isbot st now key ua
  = ((respond isbot now key ua (linkObject l)).1,
     mkState (store st)
       (<[key := mkCacheEntry (JSON_stringify (linkObject l)) None]> (cache st)),
     (respond isbot now key ua (linkObject l)).2).
Proof.
  intros Hk Hc Hs. unfold handleGetLink.
  rewrite (truthyStr_true _ Hk), Hc, Hs. simpl.
  by destruct (respond isbot now key ua (linkObject l)).
Qed.

Lemma handleGetLink_hit st now key ua text :
  key ≠ [] →
  redisClient_get (cache st) now key = Some text →
  handleGetLink isbot st now key ua
  = ((respond isbot now key ua (JSON_parse text)).1, st,
     (respond isbot now key ua (JSON_parse text)).2).
Proof.
  intros Hk Hc. unfold handleGetLink.
  rewrite (truthyStr_true _ Hk), Hc. simpl.
  by destruct (respond isbot now key ua (JSON_parse text)).
Qed.

Lemma handleGetLink_resolved st now key ua l :
  key ≠ [] →
  (redisClient_get (cache st) now key = None
   ∧ findUnique (store st) key = Some l)
  ∨ redisClient_get (cache st) now key = Some (JSON_stringify (linkObject l)) →
  (handleGetLink isbot st now key ua).1.1
  = (respond isbot now key ua (linkObject l)).1.
Proof.
  intros Hk [[Hc Hs] | Hc].
  - by rewrite (handleGetLink_miss _ _ _ _ l).
  - rewrite (handleGetLink_hit _ _ _ _ _ Hk Hc).
    by rewrite respond_JSON.
Qed.

Lemma inert_iff now l :
  inert now l = true ↔
  link_archived l = true ∨ ∃ e, link_expiresAt l = Some e ∧ e < now.
Proof.
  unfold inert. rewrite orb_true_iff.
  destruct (link_expiresAt l) as [e|].
  - rewrite Z.ltb_lt. split; (intros [Ha|He]; [by left|right]).
    + by exists e.
    + by destruct He as (? & [= ->] & ?).
  - split; (intros [Ha|He]; [by left|]); [done|].
    by destruct He as (? & ? & _).
Qed.

(** For a row found in the store after a cache miss, or read from the copy
    a resolution wrote back to the cache: the answer is [Gone] exactly when
    the row is archived or its expiry lies before the current instant. *)
Lemma resolve_row_gone_iff_inert st now key ua l :
  key ≠ [] →
  (redisClient_get (cache st) now key = None
   ∧ findUnique (store st) key = Some l)
  ∨ redisClient_get (cache st) now key = Some (JSON_stringify (linkObject l)) →
  let r := (handleGetLink isbot st now key ua).1.1 in
  (link_archived l = true → isGone r = true)
  ∧ (∀ e, link_archived l = false → link_expiresAt l = Some e → e < now →
     isGone r = true)
  ∧ (isGone r = true ↔
     link_archived l = true ∨ ∃ e, link_expiresAt l = Some e ∧ e < now)
  ∧ (servesLink r = true ↔
     link_archived l = false
     ∧ (link_expiresAt l = None ∨ ∃ e, link_expiresAt l = Some e ∧ now ≤ e)).
Proof.
  intros Hk Hres r. subst r.
  rewrite (handleGetLink_resolved _ _ _ _ l Hk Hres).
  rewrite respond_row_gone, respond_row_serves.
  split; [|split; [|split]].
  - intros Ha. apply inert_iff. by left.
  - intros e _ He Hlt. apply inert_iff. right. by exists e.
  - apply inert_iff.
  - split.
    + intros Hn. apply negb_true_iff in Hn. unfold inert in Hn.
      apply orb_false_iff in Hn as [Ha He]. split; [done|].
      destruct (link_expiresAt l) as [e|]; [|by left].
      right. exists e. split; [done|]. apply Z.ltb_ge in He. lia.
    + intros [Ha He]. apply negb_true_iff.
      destruct (inert now l) eqn:E; [|done].
      apply inert_iff in E as [E | (e & E1 & E2)]; [congruence|].
      destruct He as [He | (e' & He & Hle)]; [congruence|].
      rewrite E1 in He. injection He as <-. lia.
Qed.

Lemma respond_record_gone now key ua link :
  isGone (respond isbot now key ua link).1
  = expired now link || truthyBoolField (o_archived link).
Proof.
  unfold respond. destruct (expired now link); [done|].
  destruct (truthyBoolField (o_archived link)); [done|].
  by destruct (isbot ua).
Qed.

Lemma respond_record_serves now key ua link :
  servesLink (respond isbot now key ua link).1
  = negb (expired now link || truthyBoolField (o_archived link)).
Proof.
  unfold respond. destruct (expired now link); [done|].
  destruct (truthyBoolField (o_archived link)); [done|].
  by destruct (isbot ua).
Qed.

Lemma expired_iff now link :
  expired now link = true ↔ ∃ d, o_expiresAt link = Val d ∧ newDate d < now.
Proof.
  unfold expired. destruct (o_expiresAt link) as [| |d].
  - split; [done | by intros (? & ? & _)].
  - split; [done | by intros (? & ? & _)].
  - rewrite Z.ltb_lt. split; [by exists d | by intros (? & [= ->] & ?)].
Qed.

Lemma truthyBoolField_iff (f : field bool) :
  truthyBoolField f = true ↔ f = Val true.
Proof. destruct f as [| |[|]]; split; done. Qed.

Lemma handleGetLink_record st now key ua link :
  key ≠ [] → resolvedRecord st now key = Some link →
  (handleGetLink isbot st now key ua).1.1
  = (respond isbot now key ua link).1.
Proof.
  intros Hk. unfold resolvedRecord.
  destruct (redisClient_get (cache st) now key) as [text|] eqn:Hc.
  - intros [= <-]. by rewrite (handleGetLink_hit _ _ _ _ _ Hk Hc).
  - destruct (findUnique (store st) key) as [row|] eqn:Hs; [|done].
    intros [= <-]. by rewrite (handleGetLink_miss _ _ _ _ row Hk Hc Hs).
Qed.

(** C1: for the record a resolution works on, whichever it is (the object
    parsed from any live cache entry, or the row found in the store after a
    miss), the answer is [Gone] exactly when the record's [archived] is true
    or its [expiresAt] is set and lies before the current instant; a record
    whose [archived] is true is [Gone] whatever its [expiresAt]; a redirect
    or a preview is answered exactly when [archived] is not true and
    [expiresAt] is missing, null or not yet past. *)
Theorem resolve_gone_iff_inert st now key ua link :
  key ≠ [] →
  resolvedRecord st now key = Some link →
  let r := (handleGetLink isbot st now key ua).1.1 in
  (o_archived link = Val true → isGone r = true)
  ∧ (∀ d, o_expiresAt link = Val d → newDate d < now → isGone r = true)
  ∧ (isGone r = true ↔
     o_archived link = Val true
     ∨ ∃ d, o_expiresAt link = Val d ∧ newDate d < now)
  ∧ (servesLink r = true ↔
     o_archived link ≠ Val true
     ∧ (o_expiresAt link = Undefined ∨ o_expiresAt link = Null
        ∨ ∃ d, o_expiresAt link = Val d ∧ now ≤ newDate d)).
Proof.
  intros Hk Hres r. subst r.
  rewrite (handleGetLink_record st now key ua link Hk Hres).
  rewrite respond_record_gone, respond_record_serves.
  assert (expired now link || truthyBoolField (o_archived link) = true ↔
          o_archived link = Val true
          ∨ ∃ d, o_expiresAt link = Val d ∧ newDate d < now) as Hiff.
  { rewrite orb_true_iff, expired_iff, truthyBoolField_iff. tauto. }
  split; [|split; [|split]].
  - intros Ha. apply Hiff. by left.
  - intros d Hd Hlt. apply Hiff. right. by exists d.
  - done.
  - rewrite negb_true_iff, <- not_true_iff_false, Hiff. split.
    + intros Hn. split; [tauto|].
      destruct (o_expiresAt link) as [| |d]; [by left | by right; left|].
      right. right. exists d. split; [done|].
      destruct (Z_lt_ge_dec (newDate d) now) as [Hlt|Hge]; [|lia].
      exfalso. apply Hn. right. by exists d.
    + intros [Ha He] [Hb | (d & Hd & Hlt)]; [done|].
      destruct He as [He | [He | (d' & He & Hle)]]; [congruence..|].
      rewrite Hd in He. injection He as <-. lia.
Qed.

Lemma redisClient_get_insert c now' key v :
  redisClient_get (<[key := mkCacheEntry v None]> c) now' key = Some v.
Proof. unfold redisClient_get. by rewrite lookup_insert_eq. Qed.

(** C3: when a resolution misses the cache and finds the row in the
    store, the state it leaves has the row's serialization under the key,
    with no expiry, whatever the cache held before and whatever the answer
    of the resolution is; the store is untouched; every later lookup of
    the key finds that entry, its content is the row's, and the next
    resolution is answered from it without touching the state. *)
Theorem resolve_miss_writes_through st now key ua l :
  key ≠ [] →
  redisClient_get (cache st) now key = None →
  findUnique (store st) key = Some l →
  let st' := (handleGetLink isbot st now key ua).1.2 in
  cache st' !! key
    = Some {| payload := JSON_stringify (linkObject l); exat := None |}
  ∧ store st' = store st
  ∧ (∀ now', redisClient_get (cache st') now' key
             = Some (JSON_stringify (linkObject l)))
  ∧ sameContent l (JSON_parse (JSON_stringify (linkObject l)))
  ∧ (∀ now' ua',
       handleGetLink isbot st' now' key ua'
       = ((respond isbot now' key ua' (linkObject l)).1, st',
          (respond isbot now' key ua' (linkObject l)).2)).
Proof.
  intros Hk Hc Hs st'. subst st'.
  rewrite (handleGetLink_miss _ _ _ _ l Hk Hc Hs). cbn [fst snd cache store].
  split; [by rewrite lookup_insert_eq|]. split; [done|].
  split; [intros now'; by apply redisClient_get_insert|].
  split.
  - unfold sameContent. simpl.
    by destruct (link_expiresAt l).
  - intros now' ua'.
    rewrite (handleGetLink_hit _ _ _ _ (JSON_stringify (linkObject l)) Hk).
    + by rewrite respond_JSON.
    + by apply redisClient_get_insert.
Qed.

Lemma handleGetLink_dispatch st now key ua r st' wd :
  handleGetLink isbot st now key ua = (r, st', Some wd) →
  wd_key wd = key ∧ store st' = store st.
Proof.
  unfold handleGetLink. destruct (negb (truthyStr key)); [done|].
  destruct (redisClient_get (cache st) now key) as [text|].
  - destruct (respond isbot now key ua (JSON_parse text)) as [r0 w0] eqn:E.
    intros [= <- <- ->]. split; [|done].
    unfold respond in E.
    destruct (expired now (JSON_parse text)); [done|].
    destruct (truthyBoolField (o_archived (JSON_parse text))); [done|].
    destruct (isbot ua); [done|]. by injection E as _ <-.
  - destruct (findUnique (store st) key) as [row|]; [|done].
    destruct (respond isbot now key ua (linkObject row)) as [r0 w0] eqn:E.
    intros [= <- <- ->]. split; [|done].
    unfold respond in E.
    destruct (expired now (linkObject row)); [done|].
    destruct (truthyBoolField (o_archived (linkObject row))); [done|].
    destruct (isbot ua); [done|]. by injection E as _ <-.
Qed.

(** C4: for a click update dispatched by a resolution, run against the
    store as it is when the worker gets to it, the row of the key gets its
    [clicks] raised by exactly 1 in one store step, no other row changes,
    and the result is the same for every [clicks] value in the dispatched
    data; the resolution itself writes nothing to the store. *)
Theorem click_update_increments_by_one st now key ua r st' wd s now' l :
  handleGetLink isbot st now key ua = (r, st', Some wd) →
  s !! key = Some l →
  let res := updateLinkClicksWorker s now' wd in
  res.2 = StatusDone
  ∧ res.1 !! key = Some (incrementClicks now' l)
  ∧ link_clicks (incrementClicks now' l) = link_clicks l + 1
  ∧ (∀ k, k ≠ key → res.1 !! k = s !! k)
  ∧ (∀ c, updateLinkClicksWorker s now' (mkWorkerData key c) = res)
  ∧ store st' = store st.
Proof.
  intros [Hwk Hst]%handleGetLink_dispatch Hs res. subst res.
  destruct wd as [k c0]. simpl in Hwk. subst k.
  rewrite (updateLinkClicksWorker_found s now' _ l) by done. simpl.
  split; [done|]. split; [by rewrite lookup_insert_eq|]. split; [done|].
  split; [intros k Hk; by rewrite lookup_insert_ne|]. split; [|done].
  intros c. by rewrite (updateLinkClicksWorker_found s now' _ l).
Qed.

(** ** Archival *)

Lemma archivedInv_step st now key ua :
  key ≠ [] → archivedInv key st →
  isGone (handleGetLink isbot st now key ua).1.1 = true
  ∧ archivedInv key (handleGetLink isbot st now key ua).1.2.
Proof.
  intros Hk (l & Hs & Ha & Hc).
  destruct (redisClient_get (cache st) now key) as [text|] eqn:E.
  - rewrite (handleGetLink_hit _ _ _ _ _ Hk E). cbn [fst snd].
    assert (text = JSON_stringify (linkObject l)) as ->.
    { unfold redisClient_get in E.
      destruct (cache st !! key) as [e|] eqn:Ee; [|done].
      destruct (entryLive now e); [|done]. injection E as <-. by apply Hc. }
    rewrite respond_JSON, respond_row_gone. split.
    + apply inert_iff. by left.
    + by exists l.
  - rewrite (handleGetLink_miss _ _ _ _ l Hk E Hs). cbn [fst snd].
    rewrite respond_row_gone. split.
    + apply inert_iff. by left.
    + exists l. cbn [store cache]. split; [done|]. split; [done|].
      intros e. rewrite lookup_insert_eq. by intros [= <-].
Qed.

Lemma archivedInv_resolveAll key reqs : ∀ st,
  key ≠ [] → archivedInv key st →
  Forall (λ r, isGone r = true) (resolveAll isbot st key reqs).
Proof.
  induction reqs as [|[now ua] rest IH]; intros st Hk Hinv; [constructor|].
  cbn [resolveAll].
  destruct (archivedInv_step st now key ua Hk Hinv) as [Hg Hi].
  destruct (handleGetLink isbot st now key ua) as [[r st'] w].
  constructor; [done|]. by apply IH.
Qed.

(** C7: for a key of the route, archival answers [NotFound] exactly when
    no row has the key and [Conflict] exactly when the row is already
    archived, the state being left as it was in both cases; otherwise it
    answers [Ok], the row is the old one with [archived] set, the cache has
    no entry for the key, and every later resolution of the key answers
    [Gone]. *)
Theorem handleLinkArchive_spec st now key :
  key ≠ [] →
  let r := (handleLinkArchive st now key).1 in
  let st' := (handleLinkArchive st now key).2 in
  (r = NotFound "Link not found" ↔ store st !! key = None)
  ∧ (r = Conflict "Link already archived" ↔
     ∃ l, store st !! key = Some l ∧ link_archived l = true)
  ∧ (r = NotFound "Link not found" ∨ r = Conflict "Link already archived" →
     st' = st)
  ∧ (r = Ok "Link archived" ↔
     ∃ l, store st !! key = Some l ∧ link_archived l = false)
  ∧ (∀ l, store st !! key = Some l → link_archived l = false →
     store st' = <[key := archiveRow now l]> (store st)
     ∧ link_archived (archiveRow now l) = true
     ∧ cache st' = delete key (cache st)
     ∧ cache st' !! key = None
     ∧ (∀ now', redisClient_get (cache st') now' key = None)
     ∧ ∀ reqs, Forall (λ r, isGone r = true) (resolveAll isbot st' key reqs)).
Proof.
  intros Hk r st'. subst r st'. unfold handleLinkArchive, findUnique.
  rewrite (truthyStr_true _ Hk). cbn [negb].
  destruct (store st !! key) as [l|] eqn:Hs.
  - destruct (link_archived l) eqn:Ha; cbn [fst snd].
    + split; [done|]. split; [split; [by exists l | done]|].
      split; [done|]. split; [|intros ? [= <-]; congruence].
      split; [done|]. intros (? & [= <-] & ?). congruence.
    + split; [done|].
      split; [split; [done | intros (? & [= <-] & ?); congruence]|].
      split; [by intros [|]|]. split; [split; [by exists l | done]|].
      intros ? [= <-] _. cbn [store cache]. unfold redisClient_del.
      split; [done|]. split; [done|]. split; [done|].
      split; [by rewrite lookup_delete_eq|].
      split; [intros now'; unfold redisClient_get; by rewrite lookup_delete_eq|].
      intros reqs. apply archivedInv_resolveAll; [done|].
      exists (archiveRow now l). cbn [store cache].
      split; [by rewrite lookup_insert_eq|]. split; [done|].
      intros e. by rewrite lookup_delete_eq.
  - cbn [fst snd]. split; [done|].
    split; [split; [done | by intros (? & ? & _)]|].
    split; [done|]. split; [split; [done | by intros (? & ? & _)]|].
    done.
Qed.

(** ** Creation *)

Lemma reservedKeys_accepted key :
  key ∈ reservedKeys → key ≠ [] ∧ is_Some (processKey key).
Proof.
  intros H. apply list_elem_of_In in H. simpl in H.
  destruct H as [<- | [<- | [<- | []]]]; (split; [done|]); vm_compute; eauto.
Qed.

(** C8: a creation request that carries a url and whose key is one of
    'blog', 'pricing', 'privacy' is answered [Conflict] and leaves the
    store and the cache as they were, whatever the store holds. *)
Theorem handleCreateLink_reserved st env body userId :
  body_url body ≠ [] →
  body_key body ∈ reservedKeys →
  handleCreateLink st env body userId = (Conflict "Key already exists!", st).
Proof.
  intros Hu Hr. destruct (reservedKeys_accepted _ Hr) as [Hk Hp].
  unfold handleCreateLink.
  rewrite (truthyStr_true _ Hu), (truthyStr_true _ Hk). cbn [negb orb].
  rewrite (bool_decide_eq_true_2 _ Hp). cbn [negb].
  unfold checkIfKeyExists. by rewrite (bool_decide_eq_true_2 _ Hr).
Qed.

Lemma handleCreateLink_created st env body userId m st1 :
  handleCreateLink st env body userId = (Created m, st1) →
  body_url body ≠ [] ∧ body_key body ≠ []
  ∧ is_Some (processKey (body_key body))
  ∧ checkIfKeyExists (store st) (body_key body) = false
  ∧ body_expiresAt body ≠ ExpInvalid
  ∧ ∃ title description image row,
      link_key row = body_key body
      ∧ link_url row = body_url body
      ∧ store st1 = <[body_key body := row]> (store st)
      ∧ cache st1
        = redisClient_set (cache st) (env_now env) (body_key body)
            (creationEntry (body_url body) title description image) true
            (match body_expiresAt body with
             | ExpDate ms => if ms =? 0 then None else Some ms
             | _ => None
             end).
Proof.
  unfold handleCreateLink.
  destruct (body_url body) as [|u0 u] eqn:Eu; [done|].
  destruct (body_key body) as [|k0 k] eqn:Ek; [done|].
  cbn [truthyStr negb orb].
  destruct (bool_decide (is_Some (processKey (k0 :: k)))) eqn:Ep; [|done].
  apply bool_decide_eq_true_1 in Ep. cbn [negb].
  destruct (checkIfKeyExists (store st) (k0 :: k)) eqn:Ec; [done|].
  destruct (env_metadata env) as [md|]; [|done].
  assert (store st !! (k0 :: k) = None) as Hfree.
  { unfold checkIfKeyExists, findUnique in Ec.
    destruct (bool_decide ((k0 :: k) ∈ reservedKeys)); [done|].
    apply bool_decide_eq_false_1 in Ec.
    destruct (store st !! (k0 :: k)); [|done]. exfalso. eauto. }
  unfold prisma_create. cbn [link_key]. rewrite Hfree.
  destruct (body_expiresAt body) as [|ms|] eqn:Ee; [| |done].
  - cbn [exatRefused]. intros [= <- <-]. repeat (split; [done|]).
    eexists _, _, _, (mkLink _ _ _ _ _ _ _ _ _ _ _ _).
    cbn [store cache link_key link_url]. repeat split; reflexivity.
  - destruct (exatRefused (if ms =? 0 then None else Some ms)); [done|].
    intros [= <- <-]. repeat (split; [done|]).
    eexists _, _, _, (mkLink _ _ _ _ _ _ _ _ _ _ _ _).
    cbn [store cache link_key link_url]. repeat split; reflexivity.
Qed.

Lemma orNull_defined f : orNull f ≠ Undefined.
Proof. unfold orNull. destruct f as [| |[|]]; done. Qed.

(** C10: the entry a successful creation writes under a key that had no
    cache entry holds [url] and the three metadata properties and nothing
    else: [archived], [expiresAt], [clicks], [key] and [userId] are
    missing.  Its only expiry is the cache's own.  Whatever the store says
    by then, a resolution that reads this entry while it is live never
    answers [Gone]: an automated client gets the preview, anyone else the
    redirect together with a click update whose [clicks] is not a
    number. *)
Theorem creation_entry_lacks_gate_fields st env body userId m st1 :
  handleCreateLink st env body userId = (Created m, st1) →
  redisClient_get (cache st) (env_now env) (body_key body) = None →
  ∃ entry,
    cache st1 !! body_key body = Some entry
    ∧ o_url (JSON_parse (payload entry)) = body_url body
    ∧ o_title (JSON_parse (payload entry)) ≠ Undefined
    ∧ o_description (JSON_parse (payload entry)) ≠ Undefined
    ∧ o_image (JSON_parse (payload entry)) ≠ Undefined
    ∧ o_archived (JSON_parse (payload entry)) = Undefined
    ∧ o_expiresAt (JSON_parse (payload entry)) = Undefined
    ∧ o_clicks (JSON_parse (payload entry)) = Undefined
    ∧ o_key (JSON_parse (payload entry)) = Undefined
    ∧ o_userId (JSON_parse (payload entry)) = Undefined
    ∧ o_id (JSON_parse (payload entry)) = Undefined
    ∧ o_createdAt (JSON_parse (payload entry)) = Undefined
    ∧ o_updatedAt (JSON_parse (payload entry)) = Undefined
    ∧ exat entry
      = match body_expiresAt body with
        | ExpDate ms => if ms =? 0 then None else Some ms
        | _ => None
        end
    ∧ ∀ st2 now ua,
        cache st2 !! body_key body = Some entry →
        entryLive now entry = true →
        handleGetLink isbot st2 now (body_key body) ua
        = if isbot ua
          then (BotPreview
                  (generateLinkPreview
                     (o_title (JSON_parse (payload entry)))
                     (o_description (JSON_parse (payload entry)))
                     (o_image (JSON_parse (payload entry)))),
                st2, None)
          else (Redirect (body_url body), st2,
                Some (mkWorkerData (body_key body) NaN)).
Proof.
  intros Hcr Hg.
  apply handleCreateLink_created in Hcr
    as (Hu & Hk & _ & _ & _ & t & d & i & row & _ & _ & _ & Hc).
  unfold redisClient_set in Hc. rewrite Hg in Hc.
  rewrite bool_decide_eq_false_2 in Hc by (by intros [? ?]).
  cbn [andb] in Hc. eexists. rewrite Hc, lookup_insert_eq.
  split; [reflexivity|]. cbn [payload exat JSON_parse creationEntry].
  cbn [o_url o_title o_description o_image o_archived o_expiresAt o_clicks
       o_key o_userId o_id o_createdAt o_updatedAt].
  split; [done|]. do 3 (split; [apply orNull_defined|]).
  do 9 (split; [done|]).
  intros st2 now ua Hc2 Hl.
  rewrite (handleGetLink_hit _ _ _ _
             (creationEntry (body_url body) t d i) Hk).
  - unfold respond, expired. simpl. by destruct (isbot ua).
  - unfold redisClient_get. rewrite Hc2, Hl. done.
Qed.

End ControllerProperties.

(** ** Worked requests *)

Lemma generateLinkPreview_strings t d i :
  generateLinkPreview (Val t) (Val d) (Val i)
  = [NEWLINE] ++ lit "      <html>" ++ [NEWLINE]
      ++ lit "      <head>" ++ [NEWLINE]
      ++ metaTag "og:title" t
      ++ metaTag "og:description" d
      ++ metaTag "og:image" i
      ++ lit "      </head>" ++ [NEWLINE]
      ++ lit "    </html>" ++ [NEWLINE]
      ++ lit "      ".
Proof. reflexivity. Qed.

Lemma generateLinkPreview_undefined :
  generateLinkPreview Undefined Undefined Undefined
  = generateLinkPreview (Val (lit "Link Preview")) (Val (lit "Link Description"))
      (Val (lit "#")).
Proof. reflexivity. Qed.

Lemma generateLinkPreview_null :
  generateLinkPreview Null Null Null
  = generateLinkPreview (Val (lit "null")) (Val (lit "null")) (Val (lit "null")).
Proof. reflexivity. Qed.

(** C5: a link created for a page without Open Graph data has no title,
    description or image; resolved by "Slackbot" it is answered with a
    preview whose three tags carry the text "null", which is not the
    preview made of the three defaults. *)
Theorem preview_of_missing_metadata_says_null :
  let st1 :=
    (handleCreateLink emptyState plainEnv
       (mkBody exampleUrl (lit "abc") ExpAbsent) None).2 in
  (handleGetLink isbotSample st1 2000 (lit "abc") (Some (lit "Slackbot"))).1.1
  = BotPreview
      (generateLinkPreview (Val (lit "null")) (Val (lit "null"))
         (Val (lit "null")))
  ∧ generateLinkPreview (Val (lit "null")) (Val (lit "null")) (Val (lit "null"))
    ≠ generateLinkPreview (Val (lit "Link Preview"))
        (Val (lit "Link Description")) (Val (lit "#"))
  ∧ (handleGetLink isbotSample
       (mkState {[ lit "abc" :=
                     mkLink (lit "id1") (lit "abc") exampleUrl false None
                       None None None None 0 1000 1000 ]} ∅)
       2000 (lit "abc") (Some (lit "Slackbot"))).1.1
    = BotPreview
        (generateLinkPreview (Val (lit "null")) (Val (lit "null"))
           (Val (lit "null"))).
Proof.
  split; [vm_compute; reflexivity|]. split; [|vm_compute; reflexivity].
  vm_compute. discriminate.
Qed.

(** C6: the key "/abc/" is accepted, its normal form being "abc"; the row
    and the cache entry are filed under "/abc/", and nothing is filed under
    "abc". *)
Theorem created_key_is_not_normalized :
  let res :=
    handleCreateLink emptyState plainEnv
      (mkBody exampleUrl (lit "/abc/") ExpAbsent) None in
  res.1 = Created "Link created!"
  ∧ processKey (lit "/abc/") = Some (lit "abc")
  ∧ (link_key <$> store res.2 !! lit "/abc/") = Some (lit "/abc/")
  ∧ store res.2 !! lit "abc" = None
  ∧ is_Some (cache res.2 !! lit "/abc/")
  ∧ cache res.2 !! lit "abc" = None.
Proof.
  vm_compute. repeat split; eauto.
Qed.

(** The record read from the entry written at creation is served. *)
Lemma resolve_gone_iff_inert_witness :
  servesLink
    (handleGetLink isbotSample
       (handleCreateLink emptyState plainEnv
          (mkBody exampleUrl (lit "abc") ExpAbsent) None).2
       2000 (lit "abc") None).1.1
  = true.
Proof.
  apply (proj2 (proj2 (proj2
    (resolve_gone_iff_inert isbotSample
       (handleCreateLink emptyState plainEnv
          (mkBody exampleUrl (lit "abc") ExpAbsent) None).2
       2000 (lit "abc") None
       (JSON_parse (creationEntry exampleUrl Undefined Undefined Undefined))
       ltac:(discriminate) ltac:(vm_compute; reflexivity))))).
  split; [discriminate | left; reflexivity].
Defined.

(** The same resolution leaves the row in the cache. *)
Lemma resolve_miss_writes_through_witness :
  cache (handleGetLink isbotSample sampleState 2000 (lit "abc") None).1.2
    !! lit "abc"
  = Some {| payload := JSON_stringify (linkObject sampleRow); exat := None |}.
Proof.
  apply (proj1
    (resolve_miss_writes_through isbotSample sampleState 2000 (lit "abc") None
       sampleRow ltac:(discriminate) ltac:(vm_compute; reflexivity)
       ltac:(vm_compute; reflexivity))).
Defined.

(** The cache says 0 clicks and the dispatched data says 1; the store goes
    from 5 to 6. *)
Lemma click_update_increments_by_one_witness :
  (updateLinkClicksWorker (store staleState) 3000
     (mkWorkerData (lit "abc") (Num 1))).1 !! lit "abc"
  = Some
      (mkLink (lit "id1") (lit "abc") exampleUrl false None
         (Some (lit "Example Domain")) None None None 6 1000 3000).
Proof.
  apply (proj1 (proj2
    (click_update_increments_by_one isbotSample staleState 2000 (lit "abc") None
       (Redirect exampleUrl) staleState (mkWorkerData (lit "abc") (Num 1))
       (store staleState) 3000
       (mkLink (lit "id1") (lit "abc") exampleUrl false None
          (Some (lit "Example Domain")) None None None 5 1000 1500)
       ltac:(vm_compute; reflexivity) ltac:(vm_compute; reflexivity)))).
Defined.

(** Archiving a live row succeeds. *)
Lemma handleLinkArchive_spec_witness :
  (handleLinkArchive sampleState 2000 (lit "abc")).1 = Ok "Link archived".
Proof.
  apply (proj2 (proj1 (proj2 (proj2 (proj2
    (handleLinkArchive_spec isbotSample sampleState 2000 (lit "abc")
       ltac:(discriminate))))))).
  exists sampleRow. split; vm_compute; reflexivity.
Defined.

(** 'blog' is refused although no row has that key. *)
Lemma handleCreateLink_reserved_witness :
  handleCreateLink sampleState plainEnv
    (mkBody exampleUrl (lit "blog") ExpAbsent) None
  = (Conflict "Key already exists!", sampleState).
Proof.
  apply (handleCreateLink_reserved sampleState plainEnv
           (mkBody exampleUrl (lit "blog") ExpAbsent) None).
  - discriminate.
  - apply list_elem_of_here.
Defined.

(** The entry written for a link that expires at instant 5000. *)
Lemma creation_entry_lacks_gate_fields_witness :
  ∃ entry,
    cache (handleCreateLink emptyState plainEnv
             (mkBody exampleUrl (lit "abc") (ExpDate 5000)) None).2
      !! lit "abc" = Some entry
    ∧ o_archived (JSON_parse (payload entry)) = Undefined
    ∧ o_expiresAt (JSON_parse (payload entry)) = Undefined
    ∧ o_clicks (JSON_parse (payload entry)) = Undefined.
Proof.
  destruct
    (creation_entry_lacks_gate_fields isbotSample emptyState plainEnv
       (mkBody exampleUrl (lit "abc") (ExpDate 5000)) None "Link created!"
       (handleCreateLink emptyState plainEnv
          (mkBody exampleUrl (lit "abc") (ExpDate 5000)) None).2
       ltac:(vm_compute; reflexivity) ltac:(vm_compute; reflexivity))
    as (entry & H1 & _ & _ & _ & _ & H2 & H3 & H4 & _).
  exists entry. repeat split; assumption.
Defined.

(** * Further properties *)

(** ** Keys in normal form *)

Lemma replaceSlashes_nil key :
  replaceSlashes key = [] ↔ forallb isSlash key = true.
Proof.
  split.
  - intros E. destruct (replaceSlashes_stripped key) as (n & m & Hk & _).
    rewrite E in Hk. rewrite Hk, !forallb_app, !forallb_isSlash_replicate.
    done.
  - intros H. symmetry. apply stripped_unique.
    exists (length key), 0%nat. simpl. rewrite app_nil_r.
    split; [by apply forallb_isSlash_eq | done].
Qed.

(** X1: the keys [processKey] answers unchanged are exactly the non-empty
    keys of allowed characters that neither begin nor end with a slash. *)
Theorem processKey_fixed_point (key : list N) :
  processKey key = Some key ↔
  key ≠ [] ∧ Forall allowedCodePoint (codePoints key)
  ∧ head key ≠ Some SLASH ∧ last key ≠ Some SLASH.
Proof.
  rewrite processKey_Some, <- validKeyRegex_test_allowed. split.
  - intros (Hv & E & Hne). split; [done|]. split; [done|].
    destruct (replaceSlashes_stripped key) as (_ & _ & _ & Hh & Hl).
    by rewrite <- E in Hh, Hl.
  - intros (Hne & Hv & Hh & Hl). split; [done|]. split; [|done].
    symmetry. by apply replaceSlashes_fixed.
Qed.

(** X2: [processKey] rejects a key exactly when it holds a character that
    is not allowed or consists of slashes only; the empty key is the case
    of no slashes at all. *)
Theorem processKey_None (key : list N) :
  processKey key = None ↔
  ¬ Forall allowedCodePoint (codePoints key)
  ∨ key = replicate (length key) SLASH.
Proof.
  rewrite <- validKeyRegex_test_allowed. unfold processKey.
  destruct (validKeyRegex_test key) eqn:Ev; cbn [negb].
  - destruct (replaceSlashes key) as [|c t] eqn:E; cbn [length Nat.eqb].
    + split; [|done]. intros _. right.
      by apply forallb_isSlash_eq, replaceSlashes_nil.
    + split; [done|]. intros [Hn | Hs]; [done|]. exfalso.
      assert (replaceSlashes key = []) as E'.
      { apply replaceSlashes_nil. rewrite Hs.
        apply forallb_isSlash_replicate. }
      congruence.
  - split; [|done]. intros _. left. congruence.
Qed.

Lemma noSurrogatePair_replicate m :
  noSurrogatePair (replicate m SLASH) = true.
Proof.
  induction m as [|m IH]; [done|]. cbn [replicate noSurrogatePair].
  rewrite IH. by destruct (replicate m SLASH).
Qed.

Lemma noSurrogatePair_slashes_l n s :
  noSurrogatePair (replicate n SLASH ++ s) = noSurrogatePair s.
Proof.
  induction n as [|n IH]; [done|].
  change (replicate (S n) SLASH ++ s) with (SLASH :: (replicate n SLASH ++ s)).
  cbn [noSurrogatePair]. rewrite IH.
  by destruct (replicate n SLASH ++ s).
Qed.

Lemma noSurrogatePair_slashes_r s m :
  noSurrogatePair (s ++ replicate m SLASH) = noSurrogatePair s.
Proof.
  induction s as [|h t IH]; [apply noSurrogatePair_replicate|].
  change ((h :: t) ++ replicate m SLASH) with (h :: (t ++ replicate m SLASH)).
  cbn [noSurrogatePair]. rewrite IH. destruct t as [|l t]; [|done].
  cbn [app]. destruct m as [|m]; [done|]. cbn [replicate].
  replace (isLowSurrogate SLASH) with false by done.
  by rewrite andb_false_r.
Qed.

Lemma forallb_keyClass_replicate n :
  forallb keyClass (replicate n SLASH) = true.
Proof. induction n as [|n IH]; [done|]. cbn [replicate forallb]. by rewrite IH. Qed.

Lemma stripped_more_slashes key r n m :
  stripped key r → stripped (replicate n SLASH ++ key ++ replicate m SLASH) r.
Proof.
  intros (a & b & -> & Hh & Hl). exists (n + a)%nat, (b + m)%nat.
  split; [|done]. rewrite !replicate_add, <- !app_assoc. done.
Qed.

(** X3: slashes put around a key do not change what [processKey] makes of
    it. *)
Theorem processKey_surrounding_slashes (key : list N) (n m : nat) :
  processKey (replicate n SLASH ++ key ++ replicate m SLASH) = processKey key.
Proof.
  unfold processKey.
  assert (replaceSlashes (replicate n SLASH ++ key ++ replicate m SLASH)
          = replaceSlashes key) as ->.
  { symmetry. apply stripped_unique, stripped_more_slashes,
      replaceSlashes_stripped. }
  rewrite (validKeyRegex_test_units (_ ++ _)), !forallb_app.
  rewrite !forallb_keyClass_replicate, andb_true_r. cbn [andb].
  rewrite noSurrogatePair_slashes_l, noSurrogatePair_slashes_r.
  by rewrite <- validKeyRegex_test_units.
Qed.

(** ** Truncation at its edges *)

Lemma truncate_long s n :
  3 ≤ n → n < Z.of_nat (length s) →
  truncate (Val s) n = Val (take (Z.to_nat (n - 3)) s ++ lit "...").
Proof.
  intros Hn Hs. unfold truncate.
  destruct s as [|c t]; [simpl in Hs; lia|].
  cbn [truthyStr negb orb].
  destruct (Z.of_nat (length (c :: t)) <=? n) eqn:E;
    [apply Z.leb_le in E; lia|].
  by rewrite slice_prefix by lia.
Qed.

(** X4: for a bound from 3 on, truncating twice is truncating once. *)
Theorem truncate_idempotent (str : field (list N)) (n : Z) :
  3 ≤ n → truncate (truncate str n) n = truncate str n.
Proof.
  intros Hn. destruct str as [| |s]; [done | done |].
  destruct (Z_le_gt_dec (Z.of_nat (length s)) n) as [Hs | Hs].
  - unfold truncate at 2. apply Z.leb_le in Hs. rewrite Hs, orb_true_r.
    unfold truncate. by rewrite Hs, orb_true_r.
  - rewrite truncate_long by lia. unfold truncate.
    assert ((Z.of_nat (length (take (Z.to_nat (n - 3)) s ++ lit "...")) <=? n)
            = true) as ->; [|by rewrite orb_true_r].
    apply Z.leb_le. rewrite length_app, length_take. simpl. lia.
Qed.

Lemma truncate_idempotent_witness :
  truncate (truncate (Val (replicate 300 97%N)) 120) 120
  = truncate (Val (replicate 300 97%N)) 120.
Proof. apply (truncate_idempotent (Val (replicate 300 97%N)) 120). lia. Defined.

(** X5: a bound below 3 is not kept: a string longer than such a bound is
    answered with a string of at least three code units, longer than the
    bound; the slice then counts its end from the end of the string. *)
Theorem truncate_small_bound (s : list N) (n : Z) :
  n < 3 → n < Z.of_nat (length s) → s ≠ [] →
  truncate (Val s) n
  = Val (take (Z.to_nat (Z.of_nat (length s) + n - 3)) s ++ lit "...")
  ∧ n < Z.of_nat
          (length (take (Z.to_nat (Z.of_nat (length s) + n - 3)) s ++ lit "...")).
Proof.
  intros Hn Hs Hne. split.
  - unfold truncate. destruct s as [|c t]; [done|].
    cbn [truthyStr negb orb].
    destruct (Z.of_nat (length (c :: t)) <=? n) eqn:E;
      [apply Z.leb_le in E; lia|].
    unfold slice. replace (0 <? 0) with false by done.
    destruct (n - 3 <? 0) eqn:E2; [|apply Z.ltb_ge in E2; lia].
    rewrite Z.min_l by lia. change (Z.to_nat 0) with 0%nat. rewrite drop_0.
    do 3 f_equal. lia.
  - rewrite length_app. simpl. lia.
Qed.

Lemma truncate_small_bound_witness :
  truncate (Val (lit "abcdef")) 2 = Val (lit "abcde...").
Proof.
  apply (proj1 (truncate_small_bound (lit "abcdef") 2 ltac:(lia)
                  ltac:(vm_compute; reflexivity) ltac:(discriminate))).
Defined.

(** ** Creation, case by case *)

Lemma truthyStr_false key : truthyStr key = false ↔ key = [].
Proof. by destruct key. Qed.

Lemma checkIfKeyExists_false s key :
  checkIfKeyExists s key = false ↔ (key ∉ reservedKeys) ∧ s !! key = None.
Proof.
  unfold checkIfKeyExists, findUnique. case_bool_decide as Hr.
  - split; [done | by intros [? _]].
  - rewrite bool_decide_eq_false. split.
    + intros Hn. split; [done|]. destruct (s !! key); [|done].
      exfalso. eauto.
    + intros [_ ->]. by intros [? ?].
Qed.

Lemma handleCreateLink_accepted st env m body userId :
  creatable st env body → env_metadata env = Some m →
  exatRefused (exatOf (expiresOf (body_expiresAt body))) = false →
  handleCreateLink st env body userId
  = (Created "Link created!",
     mkState (<[body_key body := createdRow env m body userId]> (store st))
       (redisClient_set (cache st) (env_now env) (body_key body)
          (creationEntry (body_url body) (ogTitle m) (ogDescription m)
             (ogImage m))
          true (exatOf (expiresOf (body_expiresAt body))))).
Proof.
  intros (Hu & Hk & Hp & Hr & Hs & _ & He) Hm Hx. unfold handleCreateLink.
  rewrite (truthyStr_true _ Hu), (truthyStr_true _ Hk).
  cbn [negb orb]. rewrite (bool_decide_eq_true_2 _ Hp). cbn [negb].
  assert (checkIfKeyExists (store st) (body_key body) = false) as ->
    by by apply checkIfKeyExists_false.
  rewrite Hm. unfold prisma_create. cbn [link_key]. rewrite Hs.
  unfold createdRow, ogTitle, ogDescription, ogImage.
  destruct (body_expiresAt body) as [|ms|]; [done | |done].
  cbn [expiresOf exatOf] in Hx |- *. by rewrite Hx.
Qed.

(** The row is filed and then the cache refuses the expiry. *)
Lemma handleCreateLink_thrown_filed st env m body userId :
  creatable st env body → env_metadata env = Some m →
  exatRefused (exatOf (expiresOf (body_expiresAt body))) = true →
  handleCreateLink st env body userId
  = (Thrown,
     mkState (<[body_key body := createdRow env m body userId]> (store st))
       (cache st)).
Proof.
  intros (Hu & Hk & Hp & Hr & Hs & _ & He) Hm Hx. unfold handleCreateLink.
  rewrite (truthyStr_true _ Hu), (truthyStr_true _ Hk).
  cbn [negb orb]. rewrite (bool_decide_eq_true_2 _ Hp). cbn [negb].
  assert (checkIfKeyExists (store st) (body_key body) = false) as ->
    by by apply checkIfKeyExists_false.
  rewrite Hm. unfold prisma_create. cbn [link_key]. rewrite Hs.
  unfold createdRow, ogTitle, ogDescription, ogImage.
  destruct (body_expiresAt body) as [|ms|]; [done | |done].
  cbn [expiresOf exatOf] in Hx |- *. by rewrite Hx.
Qed.

Lemma handleCreateLink_refused st env body userId :
  ¬ creatable st env body →
  (handleCreateLink st env body userId).1 ≠ Created "Link created!"
  ∧ (handleCreateLink st env body userId).2 = st.
Proof.
  intros Hn. unfold handleCreateLink.
  destruct (truthyStr (body_url body)) eqn:Eu; [|done].
  destruct (truthyStr (body_key body)) eqn:Ek; [|done]. cbn [negb orb].
  case_bool_decide as Hp; [|done]. cbn [negb].
  destruct (checkIfKeyExists (store st) (body_key body)) eqn:Ec; [done|].
  apply checkIfKeyExists_false in Ec as [Hr Hs].
  destruct (env_metadata env) as [m|] eqn:Em; [|done].
  destruct (body_expiresAt body) eqn:Ee; [| |done].
  - exfalso. apply Hn. unfold creatable. rewrite Em, Ee.
    split; [by destruct (body_url body)|].
    split; [by destruct (body_key body)|]. repeat split; eauto; done.
  - exfalso. apply Hn. unfold creatable. rewrite Em, Ee.
    split; [by destruct (body_url body)|].
    split; [by destruct (body_key body)|]. repeat split; eauto; done.
Qed.

Lemma creatable_dec st env body :
  creatable st env body ∨ ¬ creatable st env body.
Proof.
  unfold creatable.
  destruct (body_url body) as [|u0 u]; [right; by intros [? _]|].
  destruct (body_key body) as [|k0 k]; [right; by intros (_ & ? & _)|].
  destruct (processKey (k0 :: k)) as [p|];
    [|right; by intros (_ & _ & [? ?] & _)].
  destruct (decide ((k0 :: k) ∈ reservedKeys)) as [Hr|Hr];
    [right; by intros (_ & _ & _ & ? & _)|].
  destruct (store st !! (k0 :: k)); [right; by intros (_ & _ & _ & _ & ? & _)|].
  destruct (env_metadata env);
    [|right; by intros (_ & _ & _ & _ & _ & [? ?] & _)].
  destruct (body_expiresAt body);
    [left | left | right; by intros (_ & _ & _ & _ & _ & _ & ?)];
    repeat split; eauto.
Qed.

(** What the handler does once the request is found creatable. *)
Lemma handleCreateLink_creatable st env body userId :
  creatable st env body →
  ∃ m, env_metadata env = Some m
       ∧ ((exatRefused (exatOf (expiresOf (body_expiresAt body))) = false
           ∧ handleCreateLink st env body userId
             = (Created "Link created!",
                mkState
                  (<[body_key body := createdRow env m body userId]> (store st))
                  (redisClient_set (cache st) (env_now env) (body_key body)
                     (creationEntry (body_url body) (ogTitle m)
                        (ogDescription m) (ogImage m))
                     true (exatOf (expiresOf (body_expiresAt body))))))
          ∨ (exatRefused (exatOf (expiresOf (body_expiresAt body))) = true
             ∧ handleCreateLink st env body userId
               = (Thrown,
                  mkState
                    (<[body_key body := createdRow env m body userId]>
                       (store st))
                    (cache st)))).
Proof.
  intros Hc. pose proof Hc as (_ & _ & _ & _ & _ & [m Hm] & _). exists m.
  split; [done|].
  destruct (exatRefused (exatOf (expiresOf (body_expiresAt body)))) eqn:Hx.
  - right. split; [done|]. by apply handleCreateLink_thrown_filed.
  - left. split; [done|]. by apply handleCreateLink_accepted.
Qed.

(** X6: a creation request is answered [Created] exactly when it carries a
    url and a key, the key passes [processKey], is not reserved and has no
    row, the metadata are fetched, [expiresAt] is absent or a date, and the
    expiry it gives the cache is one the cache takes (a positive whole
    number of seconds, or none); it is answered [Conflict] exactly when url
    and key are there, the key passes and is reserved or has a row;
    [BadRequest] exactly when the url or the key is missing or the key does
    not pass.  A request that is not creatable leaves the store and the
    cache as they were; a creatable one files its row, also when the cache
    then refuses the expiry: the handler throws with the row in the store
    and the cache untouched. *)
Theorem handleCreateLink_outcome st env body userId :
  let r := (handleCreateLink st env body userId).1 in
  let st' := (handleCreateLink st env body userId).2 in
  (r = Created "Link created!" ↔
   creatable st env body
   ∧ exatRefused (exatOf (expiresOf (body_expiresAt body))) = false)
  ∧ (r = Conflict "Key already exists!" ↔
     body_url body ≠ [] ∧ body_key body ≠ []
     ∧ is_Some (processKey (body_key body))
     ∧ (body_key body ∈ reservedKeys ∨ is_Some (store st !! body_key body)))
  ∧ ((∃ m, r = BadRequest m) ↔
     body_url body = [] ∨ body_key body = []
     ∨ processKey (body_key body) = None)
  ∧ (¬ creatable st env body → st' = st)
  ∧ (creatable st env body →
     is_Some (store st' !! body_key body)
     ∧ (exatRefused (exatOf (expiresOf (body_expiresAt body))) = true →
        r = Thrown ∧ cache st' = cache st)).
Proof.
  intros r st'. subst r st'. split; [|split; [|split; [|split]]].
  - split.
    + intros Hc. destruct (creatable_dec st env body) as [Hcr|Hn].
      * split; [done|].
        destruct (handleCreateLink_creatable st env body userId Hcr)
          as (m & _ & [[Hx _] | [_ E]]); [done|]. by rewrite E in Hc.
      * by destruct (handleCreateLink_refused st env body userId Hn) as [? _].
    + intros [Hc Hx]. pose proof Hc as (_ & _ & _ & _ & _ & [m Hm] & _).
      by rewrite (handleCreateLink_accepted st env m body userId Hc Hm Hx).
  - destruct (creatable_dec st env body) as [Hcr|Hn].
    + destruct (handleCreateLink_creatable st env body userId Hcr)
        as (m & _ & [[_ E] | [_ E]]); rewrite E; cbn [fst];
        (split; [done|]);
        destruct Hcr as (_ & _ & _ & Hr & Hs & _);
        intros (_ & _ & _ & [Hin | [? Hin]]); done || congruence.
    + clear Hn. unfold handleCreateLink.
      destruct (body_url body) as [|u0 u]; [split; [done | by intros [? _]]|].
      destruct (body_key body) as [|k0 k] eqn:Ek;
        [split; [done | by intros (_ & ? & _)]|].
      cbn [truthyStr negb orb]. case_bool_decide as Hp; cbn [negb].
      * destruct (checkIfKeyExists (store st) (k0 :: k)) eqn:Ec.
        -- split; [|done]. intros _. repeat (split; [done|]).
           unfold checkIfKeyExists, findUnique in Ec.
           case_bool_decide as Hr; [by left|].
           right. by apply bool_decide_eq_true_1 in Ec.
        -- apply checkIfKeyExists_false in Ec as [Hr Hs]. split.
           ++ destruct (env_metadata env); [|done].
              unfold prisma_create. cbn [link_key]. rewrite Hs.
              destruct (body_expiresAt body) as [|ms|]; [done | |done].
              by destruct (exatRefused (if ms =? 0 then None else Some ms)).
           ++ intros (_ & _ & _ & [Hin | [? Hin]]); [done|congruence].
      * split; [done|]. by intros (_ & _ & ? & _).
  - destruct (creatable_dec st env body) as [Hcr|Hn].
    + destruct (handleCreateLink_creatable st env body userId Hcr)
        as (m & _ & [[_ E] | [_ E]]); rewrite E; cbn [fst];
        (split; [by intros [? ?]|]);
        destruct Hcr as (Hu & Hk & [p Hp] & _);
        intros [? | [? | Hn]]; done || congruence.
    + clear Hn. unfold handleCreateLink.
      destruct (body_url body) as [|u0 u]; [split; [by left | by eexists]|].
      destruct (body_key body) as [|k0 k] eqn:Ek;
        [split; [by right; left | by eexists]|].
      cbn [truthyStr negb orb]. case_bool_decide as Hp; cbn [negb].
      * split;
          [|by intros [? | [? | Hn]]; [..|rewrite Hn in Hp; by destruct Hp]].
        intros [m Hm]. exfalso.
        destruct (checkIfKeyExists (store st) (k0 :: k)); [done|].
        destruct (env_metadata env); [|done].
        unfold prisma_create in Hm; cbn [link_key] in Hm.
        destruct (store st !! (k0 :: k));
          [by destruct (body_expiresAt body)|].
        destruct (body_expiresAt body) as [|ms|]; [done | |done].
        by destruct (exatRefused (if ms =? 0 then None else Some ms)).
      * split; [|by eexists]. intros _. right. right.
        destruct (processKey (k0 :: k)); [|done]. exfalso. eauto.
  - intros Hn. by apply handleCreateLink_refused.
  - intros Hcr.
    destruct (handleCreateLink_creatable st env body userId Hcr)
      as (m & _ & [[Hx E] | [Hx E]]); rewrite E; cbn [fst snd store cache];
      rewrite lookup_insert_eq; (split; [by eexists|]); [congruence | done].
Qed.

Lemma redisClient_set_NX_miss c now key v x :
  redisClient_get c now key = None →
  redisClient_set c now key v true x = <[key := mkCacheEntry v x]> c.
Proof.
  intros H. unfold redisClient_set. rewrite H.
  by rewrite bool_decide_eq_false_2 by (by intros [? ?]).
Qed.

(** X7: a creatable request files its row under the key of the request
    and touches no other row and no cache entry of another key; a live
    cache entry already under the key is left as it is, the write being
    create-only; when the cache refuses the expiry the handler throws and
    the cache is as it was; otherwise, where the key had no live entry,
    the entry of the new link is written with the link's expiry. *)
Theorem handleCreateLink_state st env m body userId :
  creatable st env body → env_metadata env = Some m →
  let r := (handleCreateLink st env body userId).1 in
  let st' := (handleCreateLink st env body userId).2 in
  store st' !! body_key body = Some (createdRow env m body userId)
  ∧ (∀ k, k ≠ body_key body →
     store st' !! k = store st !! k ∧ cache st' !! k = cache st !! k)
  ∧ (is_Some (redisClient_get (cache st) (env_now env) (body_key body)) →
     cache st' = cache st)
  ∧ (exatRefused (exatOf (expiresOf (body_expiresAt body))) = true →
     r = Thrown ∧ cache st' = cache st)
  ∧ (exatRefused (exatOf (expiresOf (body_expiresAt body))) = false →
     r = Created "Link created!"
     ∧ (redisClient_get (cache st) (env_now env) (body_key body) = None →
        cache st' !! body_key body
        = Some (mkCacheEntry
                  (creationEntry (body_url body) (ogTitle m) (ogDescription m)
                     (ogImage m))
                  (exatOf (expiresOf (body_expiresAt body)))))).
Proof.
  intros Hc Hm r st'. subst r st'.
  destruct (exatRefused (exatOf (expiresOf (body_expiresAt body)))) eqn:Hx.
  - rewrite (handleCreateLink_thrown_filed st env m body userId Hc Hm Hx).
    cbn [fst snd store cache]. split; [by rewrite lookup_insert_eq|].
    split; [intros k Hk; by rewrite lookup_insert_ne|]. by repeat split.
  - rewrite (handleCreateLink_accepted st env m body userId Hc Hm Hx).
    cbn [fst snd store cache]. split; [by rewrite lookup_insert_eq|].
    split; [|split; [|split; [done|]]].
    + intros k Hk. rewrite lookup_insert_ne by done. split; [done|].
      unfold redisClient_set.
      destruct (true && bool_decide
                  (is_Some (redisClient_get (cache st) (env_now env)
                              (body_key body)))); [done|].
      by rewrite lookup_insert_ne.
    + intros Hl. unfold redisClient_set.
      by rewrite (bool_decide_eq_true_2 _ Hl).
    + intros _. split; [done|]. intros Hg.
      rewrite redisClient_set_NX_miss by done.
      by rewrite lookup_insert_eq.
Qed.

(** A link whose expiry has a millisecond part: the row is filed and the
    handler throws. *)
Lemma handleCreateLink_state_witness :
  (handleCreateLink sampleState plainEnv
     (mkBody exampleUrl (lit "xyz") (ExpDate 5500)) None).1
  = Thrown.
Proof.
  apply (proj1 (proj1 (proj2 (proj2 (proj2
    (handleCreateLink_state sampleState plainEnv {| open_graph := None |}
       (mkBody exampleUrl (lit "xyz") (ExpDate 5500)) None
       ltac:(repeat split; vm_compute; eauto; try discriminate;
             intros H; repeat (apply elem_of_cons in H as [H|H];
                                 [discriminate|]);
             by apply elem_of_nil in H)
       ltac:(reflexivity))))) ltac:(vm_compute; reflexivity))).
Defined.

(** X8: a reserved key with a slash in front passes [processKey], which
    answers the reserved key itself, but it is the raw key that is looked
    up among the reserved ones: where no row has the raw key, the row of
    the new link is filed under it, and the answer is [Created] whenever
    the cache takes the expiry. *)
Theorem reserved_key_behind_slash st env m url x userId r :
  r ∈ reservedKeys → url ≠ [] → store st !! (SLASH :: r) = None →
  env_metadata env = Some m → x ≠ ExpInvalid →
  processKey (SLASH :: r) = Some r
  ∧ store (handleCreateLink st env (mkBody url (SLASH :: r) x) userId).2
      !! (SLASH :: r)
    = Some (createdRow env m (mkBody url (SLASH :: r) x) userId)
  ∧ (exatRefused (exatOf (expiresOf x)) = false →
     (handleCreateLink st env (mkBody url (SLASH :: r) x) userId).1
     = Created "Link created!").
Proof.
  intros Hr Hu Hs Hm Hx.
  assert (processKey (SLASH :: r) = Some r ∧ (SLASH :: r) ∉ reservedKeys)
    as [Hp Hn].
  { apply list_elem_of_In in Hr. simpl in Hr.
    destruct Hr as [<- | [<- | [<- | []]]];
      (split; [vm_compute; reflexivity|]);
      intros H; repeat (apply elem_of_cons in H as [H|H]; [discriminate|]);
      by apply elem_of_nil in H. }
  split; [done|].
  assert (creatable st env (mkBody url (SLASH :: r) x)) as Hc.
  { unfold creatable. cbn [body_url body_key body_expiresAt].
    rewrite Hp, Hm. repeat split; eauto; done. }
  destruct (exatRefused (exatOf (expiresOf x))) eqn:Ex.
  - rewrite (handleCreateLink_thrown_filed st env m _ userId Hc Hm Ex).
    cbn [snd store body_key]. by rewrite lookup_insert_eq.
  - rewrite (handleCreateLink_accepted st env m _ userId Hc Hm Ex).
    cbn [fst snd store body_key]. by rewrite lookup_insert_eq.
Qed.

Lemma reserved_key_behind_slash_witness :
  (handleCreateLink emptyState plainEnv
     (mkBody exampleUrl (lit "/blog") ExpAbsent) None).1
  = Created "Link created!".
Proof.
  apply (proj2 (proj2
    (reserved_key_behind_slash emptyState plainEnv {| open_graph := None |}
       exampleUrl ExpAbsent None (lit "blog")
       ltac:(apply list_elem_of_here) ltac:(discriminate)
       ltac:(reflexivity) ltac:(reflexivity) ltac:(discriminate)))).
  reflexivity.
Defined.

Lemma truncated_lengthAtMost f n :
  3 ≤ n → lengthAtMost (Z.to_nat n) (fieldToOption (orNull (truncate f n))).
Proof.
  intros Hn. destruct f as [| |s]; [done | done |].
  destruct (Z_le_gt_dec (Z.of_nat (length s)) n) as [Hs | Hs].
  - unfold truncate. pose proof Hs as Hb. apply Z.leb_le in Hb.
    rewrite Hb, orb_true_r.
    destruct s as [|c t]; [done|]. cbn. split; [done|]. simpl in Hs. lia.
  - rewrite truncate_long by lia. unfold orNull, truthyStrField.
    assert (truthyStr (take (Z.to_nat (n - 3)) s ++ lit "...") = true) as ->
      by by destruct (take (Z.to_nat (n - 3)) s).
    cbn [fieldToOption lengthAtMost]. split.
    + by destruct (take (Z.to_nat (n - 3)) s).
    + rewrite length_app, length_take. simpl. lia.
Qed.

(** ** Resolution, case by case *)

Section ResolutionProperties.

Variable isbot : option (list N) → bool.

Lemma respond_cases now key ua o :
  let r := respond isbot now key ua o in
  (∃ m, r = (Gone m, None))
  ∨ (isbot ua = true ∧ ∃ html, r = (BotPreview html, None))
  ∨ (isbot ua = false
     ∧ r = (Redirect (o_url o), Some (mkWorkerData key (clicksPlusOne (o_clicks o))))).
Proof.
  unfold respond. destruct (expired now o); [left; by eexists|].
  destruct (truthyBoolField (o_archived o)); [left; by eexists|].
  destruct (isbot ua); right; [left | right]; eauto.
Qed.

(** X9: a resolution never writes to the store, and in the cache it
    touches no entry of another key. *)
Theorem handleGetLink_frame st now key ua :
  let st' := (handleGetLink isbot st now key ua).1.2 in
  store st' = store st ∧ ∀ k, k ≠ key → cache st' !! k = cache st !! k.
Proof.
  unfold handleGetLink. destruct (negb (truthyStr key)); [done|].
  destruct (redisClient_get (cache st) now key) as [text|].
  - by destruct (respond isbot now key ua (JSON_parse text)).
  - destruct (findUnique (store st) key) as [row|]; [|done].
    destruct (respond isbot now key ua (linkObject row)).
    cbn [fst snd store cache]. split; [done|]. intros k Hk.
    unfold redisClient_set. cbn [andb]. by rewrite lookup_insert_ne.
Qed.

(** X10: a resolution answers [BadRequest] exactly for the empty key and
    [NotFound] exactly when the key has neither a live cache entry nor a
    row; in both cases nothing is written and no click update starts. *)
Theorem handleGetLink_errors st now key ua :
  let r := (handleGetLink isbot st now key ua).1.1 in
  (r = BadRequest "Key is required!" ↔ key = [])
  ∧ (r = NotFound "Link not found" ↔
     key ≠ [] ∧ redisClient_get (cache st) now key = None
     ∧ store st !! key = None)
  ∧ (r = BadRequest "Key is required!" ∨ r = NotFound "Link not found" →
     handleGetLink isbot st now key ua = (r, st, None)).
Proof.
  unfold handleGetLink, findUnique.
  destruct key as [|k0 k]; [cbn; split; [done|]; split; [|done];
                            split; [done | by intros [? _]]|].
  cbn [truthyStr negb].
  destruct (redisClient_get (cache st) now (k0 :: k)) as [text|].
  - destruct (respond_cases now (k0 :: k) ua (JSON_parse text))
      as [[m E] | [[_ [h E]] | [_ E]]]; rewrite E; cbn [fst snd];
      (split; [done|]); (split; [split; [done | by intros (_ & ? & _)]|]);
      by intros [|].
  - destruct (store st !! (k0 :: k)) as [row|].
    + destruct (respond_cases now (k0 :: k) ua (linkObject row))
        as [[m E] | [[_ [h E]] | [_ E]]]; rewrite E; cbn [fst snd];
        (split; [done|]); (split; [split; [done | by intros (_ & _ & ?)]|]);
        by intros [|].
    + cbn [fst snd]. split; [done|]. split; [done|]. done.
Qed.

(** X11: a click update is dispatched exactly with a redirect, and it
    names the key of the request; an automated client never causes one. *)
Theorem handleGetLink_dispatch_iff st now key ua :
  let r := (handleGetLink isbot st now key ua).1.1 in
  let w := (handleGetLink isbot st now key ua).2 in
  (is_Some w ↔ ∃ u, r = Redirect u)
  ∧ (isbot ua = true → w = None)
  ∧ (∀ wd, w = Some wd → wd_key wd = key).
Proof.
  unfold handleGetLink.
  destruct (negb (truthyStr key));
    [cbn; split; [split; [by intros [? ?] | by intros [? ?]]|done]|].
  destruct (redisClient_get (cache st) now key) as [text|].
  - destruct (respond_cases now key ua (JSON_parse text))
      as [[m E] | [[Hb [h E]] | [Hb E]]]; rewrite E; cbn [fst snd].
    + split; [split; [by intros [? ?] | by intros [? ?]]|done].
    + split; [split; [by intros [? ?] | by intros [? ?]]|done].
    + split; [split; eauto|]. split; [congruence|]. by intros ? [= <-].
  - destruct (findUnique (store st) key) as [row|];
      [|cbn; split; [split; [by intros [? ?] | by intros [? ?]]|done]].
    destruct (respond_cases now key ua (linkObject row))
      as [[m E] | [[Hb [h E]] | [Hb E]]]; rewrite E; cbn [fst snd].
    + split; [split; [by intros [? ?] | by intros [? ?]]|done].
    + split; [split; [by intros [? ?] | by intros [? ?]]|done].
    + split; [split; eauto|]. split; [congruence|]. by intros ? [= <-].
Qed.

(** X12: while the cache holds a live entry for a key the store is not
    looked at: the answer and the dispatched click update are the same
    whatever the store holds. *)
Theorem handleGetLink_cache_shadows_store st now key ua text s' :
  redisClient_get (cache st) now key = Some text →
  (handleGetLink isbot (mkState s' (cache st)) now key ua).1.1
  = (handleGetLink isbot st now key ua).1.1
  ∧ (handleGetLink isbot (mkState s' (cache st)) now key ua).2
    = (handleGetLink isbot st now key ua).2.
Proof.
  intros H. unfold handleGetLink. cbn [cache]. rewrite H.
  destruct (negb (truthyStr key)); [done|].
  by destruct (respond isbot now key ua (JSON_parse text)).
Qed.

(** X13: a link is created where the key had no cache entry; resolved by a
    client that is not automated, before its expiry if it has one, it is
    answered with the redirect to its url, and once the dispatched worker
    has run the click count reported for the key is 1.  Where the cache
    refused the expiry at creation the resolution is taken not to come
    before the creation. *)
Theorem create_resolve_count st env m body userId now ua now' :
  creatable st env body → env_metadata env = Some m →
  redisClient_get (cache st) (env_now env) (body_key body) = None →
  isbot ua = false →
  (∀ ms, body_expiresAt body = ExpDate ms → now < ms) →
  (exatRefused (exatOf (expiresOf (body_expiresAt body))) = true →
   env_now env ≤ now) →
  let st1 := (handleCreateLink st env body userId).2 in
  let res := handleGetLink isbot st1 now (body_key body) ua in
  res.1.1 = Redirect (body_url body)
  ∧ ∃ wd, res.2 = Some wd
          ∧ handleLinkClicks
              (mkState (updateLinkClicksWorker (store res.1.2) now' wd).1
                 (cache res.1.2))
              (body_key body)
            = ClicksOk 1.
Proof.
  intros Hc Hm Hg Hb He Ht st1 res. subst res st1.
  pose proof Hc as (_ & Hk & _).
  destruct (exatRefused (exatOf (expiresOf (body_expiresAt body)))) eqn:Hx.
  - rewrite (handleCreateLink_thrown_filed st env m body userId Hc Hm Hx).
    cbn [snd]. specialize (Ht eq_refl).
    assert (redisClient_get (cache st) now (body_key body) = None) as Hg'.
    { unfold redisClient_get in *.
      destruct (cache st !! body_key body) as [e|]; [|done].
      unfold entryLive in *. destruct (exat e) as [t|]; [|done].
      destruct (env_now env <? t) eqn:E1; [done|]. apply Z.ltb_ge in E1.
      destruct (now <? t) eqn:E2; [apply Z.ltb_lt in E2; lia | done]. }
    rewrite (handleGetLink_miss isbot
               (mkState
                  (<[body_key body := createdRow env m body userId]> (store st))
                  (cache st))
               now (body_key body) ua (createdRow env m body userId) Hk Hg')
      by (cbn [store]; apply lookup_insert_eq).
    unfold respond, expired. cbn [linkObject createdRow o_expiresAt
      o_archived truthyBoolField o_url o_clicks clicksPlusOne link_expiresAt
      link_archived link_url link_clicks].
    assert (match nullable DateObject (expiresOf (body_expiresAt body)) with
            | Val d => newDate d <? now
            | _ => false
            end = false) as ->.
    { destruct (body_expiresAt body) as [|ms|] eqn:E; [done| |done].
      cbn. apply Z.ltb_ge. specialize (He ms eq_refl). lia. }
    rewrite Hb. cbn [fst snd]. split; [done|]. eexists. split; [done|].
    cbn [store cache]. unfold updateLinkClicksWorker. cbn [wd_key].
    rewrite lookup_insert_eq. cbn [fst].
    unfold handleLinkClicks, findUnique. rewrite (truthyStr_true _ Hk).
    cbn [negb store]. by rewrite lookup_insert_eq.
  - rewrite (handleCreateLink_accepted st env m body userId Hc Hm Hx).
    cbn [snd]. rewrite redisClient_set_NX_miss by done.
    rewrite (handleGetLink_hit isbot _ _ _ _
               (creationEntry (body_url body) (ogTitle m) (ogDescription m)
                  (ogImage m)) Hk).
    + unfold respond, expired. cbn [JSON_parse creationEntry o_expiresAt
        o_archived truthyBoolField o_url o_clicks clicksPlusOne].
      rewrite Hb. cbn [fst snd]. split; [done|]. eexists. split; [done|].
      cbn [store cache]. unfold updateLinkClicksWorker. cbn [wd_key].
      rewrite lookup_insert_eq. cbn [fst].
      unfold handleLinkClicks, findUnique. rewrite (truthyStr_true _ Hk).
      cbn [negb store]. by rewrite lookup_insert_eq.
    + cbn [cache]. unfold redisClient_get. rewrite lookup_insert_eq.
      unfold entryLive. cbn [exat payload].
      destruct (body_expiresAt body) as [|ms|] eqn:E; [done| |done].
      cbn [expiresOf exatOf]. destruct (ms =? 0); [done|].
      specialize (He ms eq_refl). apply Z.ltb_lt in He. by rewrite He.
Qed.

End ResolutionProperties.

Lemma handleGetLink_cache_shadows_store_witness :
  (handleGetLink isbotSample (mkState ∅ (cache staleState)) 2000 (lit "abc")
     None).1.1
  = (handleGetLink isbotSample staleState 2000 (lit "abc") None).1.1.
Proof.
  apply (proj1
    (handleGetLink_cache_shadows_store isbotSample staleState 2000 (lit "abc")
       None (JSON_stringify (linkObject sampleRow)) ∅
       ltac:(vm_compute; reflexivity))).
Defined.

Lemma create_resolve_count_witness :
  (handleGetLink isbotSample
     (handleCreateLink emptyState plainEnv
        (mkBody exampleUrl (lit "abc") (ExpDate 5000)) None).2
     2000 (lit "abc") None).1.1
  = Redirect exampleUrl.
Proof.
  apply (proj1
    (create_resolve_count isbotSample emptyState plainEnv
       {| open_graph := None |}
       (mkBody exampleUrl (lit "abc") (ExpDate 5000)) None 2000 None 3000
       ltac:(repeat split; vm_compute; eauto; try discriminate;
             intros H; repeat (apply elem_of_cons in H as [H|H];
                                 [discriminate|]);
             by apply elem_of_nil in H)
       ltac:(reflexivity) ltac:(vm_compute; reflexivity)
       ltac:(vm_compute; reflexivity)
       ltac:(intros ms [= <-]; lia)
       ltac:(vm_compute; discriminate))).
Defined.

(** ** The click count *)

(** X14: [handleLinkClicks] answers [BadRequest] for the empty key,
    [NotFound] when no row has the key, and otherwise the [clicks] of the
    row in the store, whatever the cache holds; after a click worker has
    run for the key the count it answers is one higher, and a worker run
    for a different key leaves it as it was. *)
Theorem handleLinkClicks_spec st key :
  (handleLinkClicks st key = ClicksBadRequest "Key is required!" ↔ key = [])
  ∧ (handleLinkClicks st key = ClicksNotFound "Link not found" ↔
     key ≠ [] ∧ store st !! key = None)
  ∧ (∀ l, key ≠ [] → store st !! key = Some l →
     (∀ c, handleLinkClicks (mkState (store st) c) key
           = ClicksOk (link_clicks l))
     ∧ (∀ now wd, wd_key wd = key →
        handleLinkClicks
          (mkState (updateLinkClicksWorker (store st) now wd).1 (cache st)) key
        = ClicksOk (link_clicks l + 1))
     ∧ (∀ now wd, wd_key wd ≠ key →
        handleLinkClicks
          (mkState (updateLinkClicksWorker (store st) now wd).1 (cache st)) key
        = ClicksOk (link_clicks l))).
Proof.
  unfold handleLinkClicks, findUnique.
  destruct key as [|k0 k];
    [cbn; split; [done|]; split; [split; [done | by intros [? _]]|done]|].
  cbn [truthyStr negb]. split; [by destruct (store st !! (k0 :: k))|].
  split.
  - destruct (store st !! (k0 :: k)); split; try done. by intros [_ ?].
  - intros l _ Hs. cbn [store]. rewrite Hs. split; [done|]. split.
    + intros now wd Hw. unfold updateLinkClicksWorker. rewrite Hw, Hs.
      cbn [fst]. by rewrite lookup_insert_eq.
    + intros now wd Hw. unfold updateLinkClicksWorker.
      destruct (store st !! wd_key wd); cbn [fst]; [|by rewrite Hs].
      by rewrite lookup_insert_ne, Hs.
Qed.

Lemma handleLinkClicks_spec_witness :
  handleLinkClicks
    (mkState
       (updateLinkClicksWorker (store staleState) 3000
          (mkWorkerData (lit "abc") NaN)).1 (cache staleState))
    (lit "abc")
  = ClicksOk 6.
Proof.
  apply (proj1 (proj2 (proj2 (proj2 (handleLinkClicks_spec staleState (lit "abc")))
    (mkLink (lit "id1") (lit "abc") exampleUrl false None
       (Some (lit "Example Domain")) None None None 5 1000 1500)
    ltac:(discriminate) ltac:(vm_compute; reflexivity)))
    3000 (mkWorkerData (lit "abc") NaN) eq_refl).
Defined.

(** ** Archival, again and around *)

(** X15: archiving a key that has a row a second time is answered
    [Conflict] and changes nothing, whether the first request archived the
    row or found it archived. *)
Theorem handleLinkArchive_twice st now now' key :
  key ≠ [] → is_Some (store st !! key) →
  handleLinkArchive (handleLinkArchive st now key).2 now' key
  = (Conflict "Link already archived", (handleLinkArchive st now key).2).
Proof.
  intros Hk [l Hs]. unfold handleLinkArchive at 2 3. unfold findUnique.
  rewrite (truthyStr_true _ Hk), Hs. cbn [negb].
  destruct (link_archived l) eqn:Ha; cbn [snd].
  - unfold handleLinkArchive, findUnique.
    by rewrite (truthyStr_true _ Hk), Hs, Ha.
  - unfold handleLinkArchive, findUnique. rewrite (truthyStr_true _ Hk).
    cbn [negb store]. by rewrite lookup_insert_eq.
Qed.

Lemma handleLinkArchive_twice_witness :
  handleLinkArchive (handleLinkArchive sampleState 2000 (lit "abc")).2 3000
    (lit "abc")
  = (Conflict "Link already archived",
     (handleLinkArchive sampleState 2000 (lit "abc")).2).
Proof.
  apply (handleLinkArchive_twice sampleState 2000 3000 (lit "abc")
           ltac:(discriminate) ltac:(vm_compute; eauto)).
Defined.

Lemma rowEvolves_refl l : rowEvolves l l.
Proof. unfold rowEvolves. repeat split; done || lia. Qed.

Lemma rowEvolves_trans l1 l2 l3 :
  rowEvolves l1 l2 → rowEvolves l2 l3 → rowEvolves l1 l3.
Proof.
  unfold rowEvolves. intros H1 H2.
  destruct H1 as (?&?&?&?&?&?&?&?&?&Ha1&?).
  destruct H2 as (?&?&?&?&?&?&?&?&?&Ha2&?).
  repeat split; try congruence; [auto | lia].
Qed.

(** X16: archival touches no row and no cache entry of another key, and
    the row of the key keeps its url, expiry, metadata, owner and click
    count. *)
Theorem handleLinkArchive_frame st now key :
  let st' := (handleLinkArchive st now key).2 in
  (∀ k, k ≠ key →
     store st' !! k = store st !! k ∧ cache st' !! k = cache st !! k)
  ∧ (∀ l, store st !! key = Some l →
     ∃ l', store st' !! key = Some l'
           ∧ rowEvolves l l' ∧ link_clicks l' = link_clicks l).
Proof.
  assert (∀ s : gmap (list N) Link, ∀ l, s !! key = Some l →
            ∃ l', s !! key = Some l'
                  ∧ rowEvolves l l' ∧ link_clicks l' = link_clicks l) as Hsame.
  { intros s l Hl. exists l. split; [done|]. split; [|done].
    apply rowEvolves_refl. }
  unfold handleLinkArchive, findUnique.
  destruct (negb (truthyStr key)); [cbn [snd]; split; [done | apply Hsame]|].
  destruct (store st !! key) as [l|] eqn:Hs;
    [|cbn [snd]; split; [done | by rewrite Hs]].
  destruct (link_archived l) eqn:Ha; cbn [snd];
    [split; [done | rewrite <- Hs; apply Hsame]|].
  cbn [store cache]. unfold redisClient_del. split.
  - intros k Hk. by rewrite lookup_insert_ne, lookup_delete_ne.
  - intros ? [= <-]. exists (archiveRow now l). rewrite lookup_insert_eq.
    unfold rowEvolves. cbn. rewrite Ha. repeat split; done || lia.
Qed.

(** ** Runs of requests *)

Section RunProperties.

Variable isbot : option (list N) → bool.

Lemma handleGetLink_state st now key ua :
  (handleGetLink isbot st now key ua).1.2 = st
  ∨ ∃ row, key ≠ [] ∧ redisClient_get (cache st) now key = None
           ∧ store st !! key = Some row
           ∧ (handleGetLink isbot st now key ua).1.2
             = mkState (store st)
                 (<[key := mkCacheEntry (JSON_stringify (linkObject row)) None]>
                    (cache st)).
Proof.
  destruct key as [|k0 k]; [by left|].
  destruct (redisClient_get (cache st) now (k0 :: k)) as [text|] eqn:Hc.
  - left. by rewrite (handleGetLink_hit isbot _ _ _ _ text).
  - destruct (store st !! (k0 :: k)) as [row|] eqn:Hs.
    + right. exists row. repeat (split; [done|]).
      by rewrite (handleGetLink_miss isbot _ _ _ _ row).
    + left. unfold handleGetLink, findUnique. cbn [truthyStr negb].
      by rewrite Hc, Hs.
Qed.

Lemma handleLinkArchive_state st now key :
  (handleLinkArchive st now key).2 = st
  ∨ ∃ l, store st !! key = Some l ∧ link_archived l = false
         ∧ (handleLinkArchive st now key).2
           = mkState (<[key := archiveRow now l]> (store st))
               (delete key (cache st)).
Proof.
  unfold handleLinkArchive, findUnique.
  destruct (negb (truthyStr key)); [by left|].
  destruct (store st !! key) as [l|]; [|by left].
  destruct (link_archived l) eqn:Ha; [by left|]. right. by exists l.
Qed.

Lemma handleCreateLink_state_cases st env body userId :
  (handleCreateLink st env body userId).2 = st
  ∨ ∃ m, creatable st env body ∧ env_metadata env = Some m
         ∧ ((handleCreateLink st env body userId).2
            = mkState
                (<[body_key body := createdRow env m body userId]> (store st))
                (cache st)
            ∨ (handleCreateLink st env body userId).2
              = mkState
                  (<[body_key body := createdRow env m body userId]> (store st))
                  (redisClient_set (cache st) (env_now env) (body_key body)
                     (creationEntry (body_url body) (ogTitle m)
                        (ogDescription m) (ogImage m))
                     true (exatOf (expiresOf (body_expiresAt body))))).
Proof.
  destruct (creatable_dec st env body) as [Hc|Hn].
  - right.
    destruct (handleCreateLink_creatable st env body userId Hc)
      as (m & Hm & [[_ E] | [_ E]]); exists m; rewrite E;
      (split; [done|]); (split; [done|]); [by right | by left].
  - left. by apply handleCreateLink_refused.
Qed.

Lemma step_rows st req k l :
  store st !! k = Some l →
  ∃ l', store (step isbot st req) !! k = Some l' ∧ rowEvolves l l'.
Proof.
  intros Hs.
  assert (∃ l', store st !! k = Some l' ∧ rowEvolves l l') as Hsame
    by (exists l; split; [done | apply rowEvolves_refl]).
  destruct req as [env body userId | now key ua | now key | now wd];
    cbn [step].
  - destruct (handleCreateLink_state_cases st env body userId)
      as [-> | (m & Hc & _ & [-> | ->])]; [done| |];
      cbn [store]; destruct Hc as (_ & _ & _ & _ & Hfree & _);
      rewrite lookup_insert_ne by congruence; done.
  - destruct (handleGetLink_state st now key ua)
      as [-> | (row & _ & _ & _ & ->)]; done.
  - destruct (handleLinkArchive_state st now key)
      as [-> | (l0 & Hl0 & Ha & ->)]; [done|]. cbn [store].
    destruct (decide (key = k)) as [->|Hne].
    + rewrite lookup_insert_eq. eexists. split; [done|].
      rewrite Hs in Hl0. injection Hl0 as <-.
      unfold rowEvolves. cbn. repeat split; done || lia.
    + by rewrite lookup_insert_ne.
  - cbn [store]. unfold updateLinkClicksWorker.
    destruct (store st !! wd_key wd) as [l0|] eqn:Hw; cbn [fst]; [|done].
    destruct (decide (wd_key wd = k)) as [E|Hne].
    + rewrite E, lookup_insert_eq. eexists. split; [done|].
      rewrite E, Hs in Hw. injection Hw as <-.
      unfold rowEvolves. cbn. repeat split; done || lia.
    + by rewrite lookup_insert_ne.
Qed.

Lemma run_rows reqs : ∀ st k l,
  store st !! k = Some l →
  ∃ l', store (run isbot st reqs) !! k = Some l' ∧ rowEvolves l l'.
Proof.
  induction reqs as [|req reqs IH]; intros st k l Hs.
  - exists l. split; [done | apply rowEvolves_refl].
  - cbn [run fold_left].
    destruct (step_rows st req k l Hs) as (l1 & H1 & E1).
    destruct (IH _ k l1 H1) as (l2 & H2 & E2).
    exists l2. split; [done|]. by apply (rowEvolves_trans l l1 l2).
Qed.

(** X17: through any run of creations, resolutions, archivals and click
    workers a row that is in the store stays there under its key, with the
    same id, url, expiry, metadata, owner and creation time; once archived
    it stays archived, and its click count never goes down. *)
Theorem run_row_evolves st reqs k l :
  store st !! k = Some l →
  ∃ l', store (run isbot st reqs) !! k = Some l' ∧ rowEvolves l l'.
Proof. apply run_rows. Qed.

(** X18: a key that has a row is never given to a new link, whatever
    happens in between, archival included: no later creation request for
    the key is answered [Created]. *)
Theorem key_never_reused st reqs env body userId l :
  store st !! body_key body = Some l →
  (handleCreateLink (run isbot st reqs) env body userId).1
  ≠ Created "Link created!".
Proof.
  intros Hs. destruct (run_rows reqs st _ l Hs) as (l' & Hl' & _).
  apply handleCreateLink_refused. intros (_ & _ & _ & _ & Hfree & _).
  congruence.
Qed.

Lemma createdRow_WF st env m body userId :
  creatable st env body → rowWF (body_key body) (createdRow env m body userId).
Proof.
  intros (Hu & Hk & [p Hp] & Hr & _). unfold rowWF. cbn [createdRow
    link_key link_url link_title link_description link_clicks].
  apply processKey_Some in Hp as [Hv _].
  repeat (split; [done|]).
  split; [apply (truncated_lengthAtMost _ 120); lia|].
  split; [apply (truncated_lengthAtMost _ 240); lia | lia].
Qed.

Lemma step_storeWF st req :
  storeWF (store st) → storeWF (store (step isbot st req)).
Proof.
  intros Hwf.
  destruct req as [env body userId | now key ua | now key | now wd];
    cbn [step].
  - destruct (handleCreateLink_state_cases st env body userId)
      as [-> | (m & Hc & _ & [-> | ->])]; [done| |];
      cbn [store]; intros k l;
      (destruct (decide (body_key body = k)) as [<-|Hne];
       [rewrite lookup_insert_eq; intros [= <-]; by eapply createdRow_WF
       |rewrite lookup_insert_ne by done; apply Hwf]).
  - destruct (handleGetLink_state st now key ua)
      as [-> | (row & _ & _ & _ & ->)]; done.
  - destruct (handleLinkArchive_state st now key)
      as [-> | (l0 & Hl0 & Ha & ->)]; [done|]. cbn [store]. intros k l.
    destruct (decide (key = k)) as [<-|Hne].
    + rewrite lookup_insert_eq. intros [= <-]. apply (Hwf key l0 Hl0).
    + rewrite lookup_insert_ne by done. apply Hwf.
  - cbn [store]. unfold updateLinkClicksWorker.
    destruct (store st !! wd_key wd) as [l0|] eqn:Hw; cbn [fst]; [|done].
    intros k l. destruct (decide (wd_key wd = k)) as [<-|Hne].
    + rewrite lookup_insert_eq. intros [= <-].
      destruct (Hwf _ l0 Hw) as (?&?&?&?&?&?&?&?).
      unfold rowWF. cbn. repeat split; done || lia.
    + rewrite lookup_insert_ne by done. apply Hwf.
Qed.

(** X19: the handlers only file well-formed rows and keep them so: if
    every row is filed under its own key, with a non-empty key of allowed
    characters that is not reserved, a non-empty url, a title of at most
    120 and a description of at most 240 code units, neither of them
    empty, and a click count that is not negative, then so it is after any
    run of requests. *)
Theorem run_storeWF st reqs :
  storeWF (store st) → storeWF (store (run isbot st reqs)).
Proof.
  revert st. induction reqs as [|req reqs IH]; intros st Hwf; [done|].
  cbn [run fold_left]. by apply IH, step_storeWF.
Qed.

End RunProperties.

Lemma run_row_evolves_witness :
  ∃ l', store (run isbotSample sampleState
                 [ArchiveLink 2000 (lit "abc");
                  ClickWorker 3000 (mkWorkerData (lit "abc") NaN)])
          !! lit "abc" = Some l'
        ∧ rowEvolves sampleRow l'.
Proof.
  apply (run_row_evolves isbotSample sampleState
           [ArchiveLink 2000 (lit "abc");
            ClickWorker 3000 (mkWorkerData (lit "abc") NaN)]
           (lit "abc") sampleRow).
  vm_compute. reflexivity.
Defined.

Lemma key_never_reused_witness :
  (handleCreateLink
     (run isbotSample sampleState [ArchiveLink 2000 (lit "abc")]) plainEnv
     (mkBody exampleUrl (lit "abc") ExpAbsent) None).1
  ≠ Created "Link created!".
Proof.
  apply (key_never_reused isbotSample sampleState
           [ArchiveLink 2000 (lit "abc")] plainEnv
           (mkBody exampleUrl (lit "abc") ExpAbsent) None sampleRow).
  vm_compute. reflexivity.
Defined.

Lemma run_storeWF_witness :
  storeWF
    (store (run isbotSample emptyState
              [CreateLink plainEnv (mkBody exampleUrl (lit "abc") ExpAbsent)
                 None;
               GetLink 2000 (lit "abc") None])).
Proof.
  apply (run_storeWF isbotSample emptyState).
  intros k l H. vm_compute in H. discriminate.
Defined.

(** ** The cache against the store *)

Section CoherenceProperties.

Variable isbot : option (list N) → bool.

Lemma nullable_orNull f : nullable id (fieldToOption (orNull f)) = orNull f.
Proof. unfold orNull. by destruct f as [| |[|c t]]. Qed.

Lemma creationEntry_createdRow env m body userId :
  creationEntry (body_url body) (ogTitle m) (ogDescription m) (ogImage m)
  = rowCreationEntry (createdRow env m body userId).
Proof.
  unfold creationEntry, rowCreationEntry.
  cbn [createdRow link_url link_title link_description link_image].
  by rewrite !nullable_orNull.
Qed.

Lemma sameButClicks_refl l : sameButClicks l l.
Proof. unfold sameButClicks. by repeat split. Qed.

Lemma coherent_free st k : coherent st → store st !! k = None → cache st !! k = None.
Proof.
  intros Hco Hs. destruct (cache st !! k) as [e|] eqn:He; [|done].
  destruct (Hco k e He) as (l & Hl & _). congruence.
Qed.

Lemma step_coherent st req : coherent st → coherent (step isbot st req).
Proof.
  intros Hco.
  destruct req as [env body userId | now key ua | now key | now wd];
    cbn [step].
  - destruct (handleCreateLink_state_cases st env body userId)
      as [-> | (m & Hc & _ & [-> | ->])]; [done| |];
      pose proof Hc as (_ & _ & _ & _ & Hfree & _);
      pose proof (coherent_free st _ Hco Hfree) as Hcf.
    { intros k e. cbn [store cache].
      destruct (decide (body_key body = k)) as [<-|Hne]; [congruence|].
      rewrite lookup_insert_ne by done. apply Hco. }
    rewrite redisClient_set_NX_miss
      by (unfold redisClient_get; by rewrite Hcf).
    intros k e. cbn [store cache].
    destruct (decide (body_key body = k)) as [<-|Hne].
    + rewrite !lookup_insert_eq. intros [= <-]. eexists. split; [done|].
      right. cbn [payload exat]. split; [apply creationEntry_createdRow|].
      done.
    + rewrite !lookup_insert_ne by done. apply Hco.
  - destruct (handleGetLink_state isbot st now key ua)
      as [-> | (row & _ & _ & Hrow & ->)]; [done|].
    intros k e. cbn [store cache].
    destruct (decide (key = k)) as [<-|Hne].
    + rewrite lookup_insert_eq. intros [= <-]. exists row. split; [done|].
      left. split; [done|]. exists row. split; [done|].
      apply sameButClicks_refl.
    + rewrite lookup_insert_ne by done. apply Hco.
  - destruct (handleLinkArchive_state st now key)
      as [-> | (l0 & Hl0 & Ha & ->)]; [done|].
    intros k e. cbn [store cache].
    destruct (decide (key = k)) as [<-|Hne].
    + by rewrite lookup_delete_eq.
    + rewrite lookup_delete_ne, lookup_insert_ne by done. apply Hco.
  - intros k e. cbn [store cache]. intros He.
    destruct (Hco k e He) as (l & Hl & Hsh).
    unfold updateLinkClicksWorker.
    destruct (store st !! wd_key wd) as [l0|] eqn:Hw; cbn [fst]; [|eauto].
    destruct (decide (wd_key wd = k)) as [E|Hne].
    + rewrite E, lookup_insert_eq. eexists. split; [done|].
      rewrite E, Hl in Hw. injection Hw as <-.
      destruct Hsh as [(Hx & l' & Hp & Hsb) | (Hp & Hx & Ha)].
      * left. split; [done|]. exists l'. split; [done|].
        unfold sameButClicks in *. cbn. done.
      * right. done.
    + rewrite lookup_insert_ne by done. eauto.
Qed.

(** X20: the cache stays coherent with the store through any run of
    requests: every cache entry belongs to a key that has a row, and is
    either a copy of the row that may be behind in clicks, held without
    expiry, or the entry written at creation, with the row's url and
    metadata and the row's expiry, the row not being archived. *)
Theorem run_coherent st reqs : coherent st → coherent (run isbot st reqs).
Proof.
  revert st. induction reqs as [|req reqs IH]; intros st Hco; [done|].
  cbn [run fold_left]. by apply IH, step_coherent.
Qed.

Lemma respond_sameButClicks now key ua l l' :
  sameButClicks l l' →
  (respond isbot now key ua (linkObject l')).1
  = (respond isbot now key ua (linkObject l)).1.
Proof.
  intros (_ & _ & Hu & Ha & He & Ht & Hd & Hi & _).
  unfold respond, expired. cbn [linkObject o_expiresAt o_archived o_title
    o_description o_image o_url]. rewrite Hu, Ha, He, Ht, Hd, Hi.
  destruct (link_expiresAt l) as [e|]; cbn [nullable newDate].
  - destruct (e <? now); [done|].
    destruct (truthyBoolField (Val (link_archived l))); [done|].
    by destruct (isbot ua).
  - destruct (truthyBoolField (Val (link_archived l))); [done|].
    by destruct (isbot ua).
Qed.

(** What a resolution finds for a key in a coherent state. *)
Lemma coherent_resolution st now key ua :
  coherent st → key ≠ [] →
  (store st !! key = None
   ∧ (handleGetLink isbot st now key ua).1.1 = NotFound "Link not found")
  ∨ ∃ l, store st !! key = Some l
         ∧ ((handleGetLink isbot st now key ua).1.1
            = (respond isbot now key ua (linkObject l)).1
            ∨ (link_archived l = false
               ∧ (∀ e, exatOf (link_expiresAt l) = Some e → now < e)
               ∧ (handleGetLink isbot st now key ua).1.1
                 = (respond isbot now key ua
                      (JSON_parse (rowCreationEntry l))).1)).
Proof.
  intros Hco Hk.
  destruct (redisClient_get (cache st) now key) as [text|] eqn:Hg.
  - right. rewrite (handleGetLink_hit isbot _ _ _ _ text Hk Hg). cbn [fst].
    unfold redisClient_get in Hg.
    destruct (cache st !! key) as [e|] eqn:He; [|done].
    destruct (entryLive now e) eqn:Hl; [|done]. injection Hg as <-.
    destruct (Hco key e He) as (l & Hs & [(Hx & l' & Hp & Hsb) | (Hp & Hx & Ha)]);
      exists l; (split; [done|]).
    + left. rewrite Hp, respond_JSON. by apply respond_sameButClicks.
    + right. split; [done|]. split; [|by rewrite Hp].
      intros t Ht. unfold entryLive in Hl. rewrite Hx, Ht in Hl.
      by apply Z.ltb_lt.
  - destruct (store st !! key) as [l|] eqn:Hs.
    + right. exists l. split; [done|]. left.
      by rewrite (handleGetLink_miss isbot _ _ _ _ l Hk Hg Hs).
    + left. split; [done|]. unfold handleGetLink, findUnique.
      by rewrite (truthyStr_true _ Hk), Hg, Hs.
Qed.

Lemma respond_creationEntry now key ua l :
  (respond isbot now key ua (JSON_parse (rowCreationEntry l))).1
  = if isbot ua
    then BotPreview
           (generateLinkPreview (nullable id (link_title l))
              (nullable id (link_description l)) (nullable id (link_image l)))
    else Redirect (link_url l).
Proof. unfold respond, expired. cbn. by destruct (isbot ua). Qed.

(** X21: in a coherent state the cache does not change what a resolution
    answers: the answer is the one computed from the store alone, for
    every key whose row does not expire at the epoch itself (instant 0, for
    which creation sets no cache expiry). *)
Theorem coherent_cache_transparent st now key ua :
  coherent st →
  (∀ l, store st !! key = Some l → link_expiresAt l ≠ Some 0) →
  (handleGetLink isbot st now key ua).1.1
  = resolveFromStore isbot st now key ua.
Proof.
  intros Hco Hz. unfold resolveFromStore, findUnique.
  destruct key as [|k0 k]; [done|]. cbn [truthyStr negb].
  destruct (coherent_resolution st now (k0 :: k) ua Hco)
    as [[Hs ->] | (l & Hs & [-> | (Ha & Hx & ->)])];
    [done | by rewrite Hs | by rewrite Hs |].
  rewrite Hs, respond_creationEntry. unfold respond, expired.
  cbn [linkObject o_expiresAt o_archived o_title o_description o_image
       o_url fst]. rewrite Ha. cbn [truthyBoolField].
  specialize (Hz l Hs).
  destruct (link_expiresAt l) as [e|]; cbn [nullable newDate];
    [|by destruct (isbot ua)].
  assert (now < e) as Hlt.
  { apply Hx. unfold exatOf. destruct (e =? 0) eqn:E0; [|done].
    apply Z.eqb_eq in E0. congruence. }
  destruct (e <? now) eqn:E; [apply Z.ltb_lt in E; lia|].
  by destruct (isbot ua).
Qed.

(** X22: in a coherent state an archived row is never served: every
    resolution of its key answers [Gone]. *)
Theorem coherent_archived_gone st now key ua l :
  coherent st → key ≠ [] →
  store st !! key = Some l → link_archived l = true →
  isGone (handleGetLink isbot st now key ua).1.1 = true.
Proof.
  intros Hco Hk Hs Ha.
  destruct (coherent_resolution st now key ua Hco Hk)
    as [[Hn _] | (l0 & Hs0 & [-> | (Ha0 & _)])]; [congruence | |congruence].
  rewrite respond_row_gone. apply inert_iff. left. congruence.
Qed.

(** X23: in a coherent state a redirect always goes to the url the store
    holds for the key. *)
Theorem coherent_redirect_target st now key ua u :
  coherent st →
  (handleGetLink isbot st now key ua).1.1 = Redirect u →
  ∃ l, store st !! key = Some l ∧ u = link_url l.
Proof.
  intros Hco Hr.
  destruct key as [|k0 k]; [done|].
  destruct (coherent_resolution st now (k0 :: k) ua Hco)
    as [[_ Hn] | (l & Hs & [E | (_ & _ & E)])]; [done|congruence| |];
    exists l; (split; [done|]); rewrite E in Hr.
  - destruct (respond_cases isbot now (k0 :: k) ua (linkObject l))
      as [[m E'] | [[_ [h E']] | [_ E']]]; rewrite E' in Hr;
      cbn [fst] in Hr; by simplify_eq.
  - rewrite respond_creationEntry in Hr.
    destruct (isbot ua); [done|]. by injection Hr as <-.
Qed.

End CoherenceProperties.

Lemma staleState_coherent : coherent staleState.
Proof.
  intros k e H. unfold staleState in H. cbn [cache] in H.
  apply lookup_singleton_Some in H as [<- <-].
  eexists. split; [vm_compute; reflexivity|]. left. split; [done|].
  exists sampleRow. split; [done|]. unfold sameButClicks. by repeat split.
Qed.

Lemma run_coherent_witness :
  coherent
    (run isbotSample emptyState
       [CreateLink plainEnv (mkBody exampleUrl (lit "abc") ExpAbsent) None;
        GetLink 2000 (lit "abc") None;
        ArchiveLink 3000 (lit "abc")]).
Proof.
  apply (run_coherent isbotSample emptyState).
  intros k e H. vm_compute in H. discriminate.
Defined.

Lemma coherent_cache_transparent_witness :
  (handleGetLink isbotSample staleState 2000 (lit "abc") None).1.1
  = resolveFromStore isbotSample staleState 2000 (lit "abc") None.
Proof.
  apply (coherent_cache_transparent isbotSample staleState 2000 (lit "abc")
           None staleState_coherent).
  intros l H. vm_compute in H. injection H as <-. discriminate.
Defined.

Lemma coherent_archived_gone_witness :
  isGone
    (handleGetLink isbotSample (handleLinkArchive sampleState 2000 (lit "abc")).2
       3000 (lit "abc") None).1.1
  = true.
Proof.
  apply (coherent_archived_gone isbotSample
           (handleLinkArchive sampleState 2000 (lit "abc")).2 3000 (lit "abc")
           None (archiveRow 2000 sampleRow)).
  - intros k e H. vm_compute in H. discriminate.
  - discriminate.
  - vm_compute. reflexivity.
  - reflexivity.
Defined.

Lemma coherent_redirect_target_witness :
  ∃ l, store staleState !! lit "abc" = Some l ∧ exampleUrl = link_url l.
Proof.
  apply (coherent_redirect_target isbotSample staleState 2000 (lit "abc") None
           exampleUrl staleState_coherent).
  vm_compute. reflexivity.
Defined.

Lemma handleCreateLink_outcome_witness :
  (handleCreateLink sampleState plainEnv
     (mkBody exampleUrl (lit "abc") ExpAbsent) None).2
  = sampleState.
Proof.
  apply (proj1 (proj2 (proj2 (proj2
    (handleCreateLink_outcome sampleState plainEnv
       (mkBody exampleUrl (lit "abc") ExpAbsent) None))))).
  intros (_ & _ & _ & _ & H & _). vm_compute in H. discriminate.
Defined.

Lemma handleGetLink_frame_witness :
  cache (handleGetLink isbotSample sampleState 2000 (lit "abc") None).1.2
    !! lit "xyz"
  = cache sampleState !! lit "xyz".
Proof.
  apply (proj2
    (handleGetLink_frame isbotSample sampleState 2000 (lit "abc") None)
    (lit "xyz")).
  discriminate.
Defined.

Lemma handleGetLink_errors_witness :
  handleGetLink isbotSample emptyState 2000 (lit "abc") None
  = (NotFound "Link not found", emptyState, None).
Proof.
  apply (proj2 (proj2
    (handleGetLink_errors isbotSample emptyState 2000 (lit "abc") None))).
  right. vm_compute. reflexivity.
Defined.

Lemma handleGetLink_dispatch_iff_witness :
  wd_key (mkWorkerData (lit "abc") (Num 1)) = lit "abc".
Proof.
  apply (proj2 (proj2
    (handleGetLink_dispatch_iff isbotSample staleState 2000 (lit "abc") None))
    (mkWorkerData (lit "abc") (Num 1))).
  vm_compute. reflexivity.
Defined.

Lemma handleLinkArchive_frame_witness :
  store (handleLinkArchive staleState 2000 (lit "abc")).2 !! lit "xyz"
  = store staleState !! lit "xyz".
Proof.
  apply (proj1 (proj1
    (handleLinkArchive_frame staleState 2000 (lit "abc")) (lit "xyz")
    ltac:(discriminate))).
Defined.

(** ** Many click workers *)

(** X24: after any number of click workers have run, one after the other
    in any order and for any keys, the click count of a row has gone up by
    exactly the number of workers that were started for its key; none of
    their updates is lost and the counts they carry play no part. *)
Theorem runWorkers_count (jobs : list (Z * WorkerData)) :
  ∀ (s : gmap (list N) Link) (key : list N) (l : Link),
  s !! key = Some l →
  link_clicks <$> runWorkers s jobs !! key
  = Some (link_clicks l
          + Z.of_nat (length (filter (λ j, wd_key j.2 = key) jobs))).
Proof.
  induction jobs as [|[now wd] rest IH]; intros s key l Hs.
  - cbn. rewrite Hs. cbn. f_equal. lia.
  - cbn [runWorkers]. destruct (decide (wd_key wd = key)) as [E|Hne].
    + rewrite filter_cons_True by done. rewrite <- E in Hs.
      rewrite (updateLinkClicksWorker_found s now wd l Hs). cbn [fst].
      rewrite E. rewrite (IH _ key (incrementClicks now l))
        by apply lookup_insert_eq.
      cbn. f_equal. lia.
    + rewrite filter_cons_False by done.
      apply IH. unfold updateLinkClicksWorker.
      destruct (s !! wd_key wd); cbn [fst]; [|done].
      by rewrite lookup_insert_ne.
Qed.

Lemma runWorkers_count_witness :
  link_clicks
    <$> runWorkers (store staleState)
          [(3000, mkWorkerData (lit "abc") (Num 1));
           (3001, mkWorkerData (lit "xyz") NaN);
           (3002, mkWorkerData (lit "abc") (Num 1))] !! lit "abc"
  = Some 7.
Proof.
  apply (runWorkers_count
           [(3000, mkWorkerData (lit "abc") (Num 1));
            (3001, mkWorkerData (lit "xyz") NaN);
            (3002, mkWorkerData (lit "abc") (Num 1))]
           (store staleState) (lit "abc")
           (mkLink (lit "id1") (lit "abc") exampleUrl false None
              (Some (lit "Example Domain")) None None None 5 1000 1500)).
  vm_compute. reflexivity.
Defined.
